(** * CUA annotation tool: a shallow embedding of [app.py]

    The development follows the pipeline of the program: the text
    helpers the code relies on (Python's [in], [lower], f-string
    formatting of integers, the regular expressions), the action
    code synthesizer [build_pyautogui_code], the event normalizer
    [load_task_data], the two persisted stores written by
    [api_update_coordinate] and [api_annotate], and the export
    assembler [api_export].

    Modelling conventions.
    - A Python [str] is a [string] holding its UTF-8 bytes.  The class
      [\d] is read as the ASCII digits and [\s] as ASCII white space;
      [lower] changes the ASCII letters only.
    - Pixel coordinates and step indices are integers ([Z]).
    - Time stamps are exact rationals ([Q]); the rounding of binary
      floating point is not modelled.
    - A JSON object used as a struct is a record whose optional keys
      are [option] fields; [None] stands for an absent key. *)

From Stdlib Require Import ZArith QArith Qminmax Lqa Lia.
From Stdlib Require Import Ascii String DecimalString DecimalPos DecimalZ.
From stdpp Require Import gmap strings list.

Local Open Scope string_scope.

(** ** Python text primitives *)

Module PyStr.

(** [needle in s] on strings. *)
Fixpoint contains (needle s : string) : bool :=
  String.prefix needle s ||
  match s with
  | EmptyString => false
  | String _ s' => contains needle s'
  end.

Definition is_upper (c : ascii) : bool :=
  (65 <=? nat_of_ascii c)%nat && (nat_of_ascii c <=? 90)%nat.

Definition lower_char (c : ascii) : ascii :=
  if is_upper c then ascii_of_nat (nat_of_ascii c + 32) else c.

(** [s.lower()] *)
Fixpoint lower (s : string) : string :=
  match s with
  | EmptyString => EmptyString
  | String c s' => String (lower_char c) (lower s')
  end.

(** [f"{n}"] for an integer [n]. *)
Definition format_int (n : Z) : string :=
  NilZero.string_of_int (Z.to_int n).

Definition is_digit (c : ascii) : bool :=
  (48 <=? nat_of_ascii c)%nat && (nat_of_ascii c <=? 57)%nat.

Definition is_space (c : ascii) : bool :=
  let n := nat_of_ascii c in
  ((9 <=? n)%nat && (n <=? 13)%nat) || ((28 <=? n)%nat && (n <=? 32)%nat).

(** The longest prefix of [s] whose characters satisfy [p], and the rest. *)
Fixpoint span (p : ascii -> bool) (s : string) : string * string :=
  match s with
  | EmptyString => (EmptyString, EmptyString)
  | String c s' =>
      if p c then let '(a, b) := span p s' in (String c a, b)
      else (EmptyString, s)
  end.

(** Anchored pieces of a pattern: each consumes a prefix of the input
    and returns what is left. *)

(** A literal. *)
Fixpoint lit (l s : string) : option string :=
  match l with
  | EmptyString => Some s
  | String a l' =>
      match s with
      | String b s' => if Ascii.eqb a b then lit l' s' else None
      | EmptyString => None
      end
  end.

(** [(\d+)]: greedy, at least one digit.  Every use is followed by a
    character that is not a digit or by the end of the pattern, so the
    longest run is the one the matcher settles on. *)
Definition digits1 (s : string) : option (string * string) :=
  match span is_digit s with
  | (EmptyString, _) => None
  | (d, rest) => Some (d, rest)
  end.

(** [\s*] *)
Definition spaces (s : string) : string := snd (span is_space s).

(** [(.+)] at the end of a pattern: the rest of the line, not empty. *)
Definition rest_of_line (s : string) : option string :=
  match fst (span (fun c => negb (Ascii.eqb c "010"%char)) s) with
  | EmptyString => None
  | g => Some g
  end.

(** [re.search]: the anchored matcher [m] is tried at every position,
    leftmost first. *)
Fixpoint re_search {A} (m : string -> option A) (s : string) : option A :=
  match m s with
  | Some r => Some r
  | None =>
      match s with
      | EmptyString => None
      | String _ s' => re_search m s'
      end
  end.

(** [int(d)] for a string of ASCII digits. *)
Definition digit_val (c : ascii) : Z := Z.of_nat (nat_of_ascii c) - 48.

Fixpoint int_of_digits_acc (acc : Z) (d : string) : Z :=
  match d with
  | EmptyString => acc
  | String c d' => int_of_digits_acc (10 * acc + digit_val c) d'
  end.

Definition int_of_digits (d : string) : Z := int_of_digits_acc 0 d.

(** [s.isdigit()] *)
Fixpoint all_digits (s : string) : bool :=
  match s with
  | EmptyString => true
  | String c s' => is_digit c && all_digits s'
  end.

Definition isdigit (s : string) : bool :=
  match s with
  | EmptyString => false
  | _ => all_digits s
  end.

(** Code points of a UTF-8 string: every byte except the continuation
    bytes [10xxxxxx] starts one. *)
Definition is_continuation (c : ascii) : bool :=
  (128 <=? nat_of_ascii c)%nat && (nat_of_ascii c <? 192)%nat.

(** [len(s)] *)
Fixpoint len (s : string) : nat :=
  match s with
  | EmptyString => 0
  | String c s' => if is_continuation c then len s' else S (len s')
  end.

(** [s[:n]]: the bytes of the first [n] code points. *)
Fixpoint take (n : nat) (s : string) : string :=
  match s with
  | EmptyString => EmptyString
  | String c s' =>
      if is_continuation c then String c (take n s')
      else match n with
           | O => EmptyString
           | S n' => String c (take n' s')
           end
  end.

(** What may follow a group [(\d+)]: the end, or a character that is
    not a digit. *)
Definition starts_without_digit (r : string) : Prop :=
  match r with
  | EmptyString => True
  | String c _ => is_digit c = false
  end.

(** Whether the character [c] occurs in [s]. *)
Fixpoint has_char (c : ascii) (s : string) : bool :=
  match s with
  | EmptyString => false
  | String a s' => Ascii.eqb c a || has_char c s'
  end.

End PyStr.

(** ** Raw events *)

Module Events.

(** [coordinate] sub-record of a raw event; [None] is an absent axis. *)
Record coordinate := { coord_x : option Z; coord_y : option Z }.

(** [pre_move] sub-record of a raw event.  [None] is an absent (or
    null) key: [pre_move.get(k)] gives [None] for both. *)
Record pre_move := { pm_start_time : option Q; pm_end_time : option Q }.

(** One line of [reduced_events_complete.jsonl] or
    [reduced_events_vis.jsonl]. *)
Record event := {
  ev_action : option string;
  ev_coordinate : option coordinate;
  ev_start_time : option Q;
  ev_end_time : option Q;
  ev_pre_move : option pre_move;
  ev_description : option string;
  ev_justification : option string
}.

(** [{}] *)
Definition empty_event : event :=
  {| ev_action := None; ev_coordinate := None; ev_start_time := None;
     ev_end_time := None; ev_pre_move := None; ev_description := None;
     ev_justification := None |}.

(** [coord = event.get('coordinate', {})] followed by
    [coord.get('x', 0)] and [coord.get('y', 0)]. *)
Definition get_x (ev : event) : Z :=
  match ev_coordinate ev with
  | Some c => default 0%Z (coord_x c)
  | None => 0%Z
  end.

Definition get_y (ev : event) : Z :=
  match ev_coordinate ev with
  | Some c => default 0%Z (coord_y c)
  | None => 0%Z
  end.

(** The event with its coordinate replaced by [(x, y)]. *)
Definition with_coordinate (ev : event) (x y : Z) : event :=
  {| ev_action := ev_action ev;
     ev_coordinate := Some {| coord_x := Some x; coord_y := Some y |};
     ev_start_time := ev_start_time ev; ev_end_time := ev_end_time ev;
     ev_pre_move := ev_pre_move ev; ev_description := ev_description ev;
     ev_justification := ev_justification ev |}.

End Events.

(** ** Action code synthesizer *)

Module Synth.
Import PyStr Events.

(** The markers of the scroll, type and press patterns, byte for byte
    as they stand in the source. *)
Definition down_marker : string := "‚¨áÔ∏è√ó".
Definition up_marker : string := "‚¨ÜÔ∏è√ó".
Definition keyboard_marker : string := "‚å®Ô∏è".

(** [Drag from \((\d+),\s*(\d+)\) to \((\d+),\s*(\d+)\)] *)
Definition drag_pattern (s : string) : option (string * string * string * string) :=
  s ← lit "Drag from (" s;
  '(g1, s) ← digits1 s;
  s ← lit "," s;
  '(g2, s) ← digits1 (spaces s);
  s ← lit ") to (" s;
  '(g3, s) ← digits1 s;
  s ← lit "," s;
  '(g4, s) ← digits1 (spaces s);
  _ ← lit ")" s;
  Some (g1, g2, g3, g4).

(** [<marker>(\d+)] *)
Definition count_pattern (marker : string) (s : string) : option string :=
  s ← lit marker s;
  '(g, _) ← digits1 s;
  Some g.

(** [<keyboard marker> Type: (.+)] and [<keyboard marker> Press: (.+)] *)
Definition entry_pattern (word : string) (s : string) : option string :=
  s ← lit keyboard_marker s;
  s ← lit word s;
  rest_of_line s.

Definition click_code (x y : Z) : string :=
  "pyautogui.click(" +:+ format_int x +:+ ", " +:+ format_int y +:+ ")".
Definition double_click_code (x y : Z) : string :=
  "pyautogui.doubleClick(" +:+ format_int x +:+ ", " +:+ format_int y +:+ ")".
Definition right_click_code (x y : Z) : string :=
  "pyautogui.rightClick(" +:+ format_int x +:+ ", " +:+ format_int y +:+ ")".
Definition triple_click_code (x y : Z) : string :=
  "pyautogui.click(" +:+ format_int x +:+ ", " +:+ format_int y +:+ ", clicks=3)".
Definition move_drag_code (a b c d : string) : string :=
  "pyautogui.moveTo(" +:+ a +:+ ", " +:+ b +:+ "); pyautogui.dragTo("
    +:+ c +:+ ", " +:+ d +:+ ")".
Definition drag_code (x y : Z) : string :=
  "pyautogui.drag(" +:+ format_int x +:+ ", " +:+ format_int y +:+ ")".

Definition build_pyautogui_code
    (action : string) (event : event) (description : string) : string :=
  let x := get_x event in
  let y := get_y event in
  let desc_lower := lower description in
  if String.eqb action "click" then
    if contains "double" desc_lower then double_click_code x y
    else if contains "right" desc_lower then right_click_code x y
    else if contains "triple" desc_lower then triple_click_code x y
    else click_code x y
  else if String.eqb action "drag" then
    match re_search drag_pattern description with
    | Some (g1, g2, g3, g4) => move_drag_code g1 g2 g3 g4
    | None => drag_code x y
    end
  else if String.eqb action "scroll" then
    let down := re_search (count_pattern down_marker) description in
    let up := re_search (count_pattern up_marker) description in
    let total := 0%Z in
    let total := match down with Some g => (total - int_of_digits g)%Z | None => total end in
    let total := match up with Some g => (total + int_of_digits g)%Z | None => total end in
    "pyautogui.scroll(" +:+ format_int total +:+ ")"
  else if String.eqb action "type" then
    match re_search (entry_pattern " Type: ") description with
    | Some g =>
        let text := if (30 <? len g)%nat then take 30 g +:+ "..." else g in
        "pyautogui.write('" +:+ text +:+ "')"
    | None => "pyautogui.write('...')"
    end
  else if String.eqb action "press" then
    match re_search (entry_pattern " Press: ") description with
    | Some g => "pyautogui.hotkey(" +:+ g +:+ ")"
    | None => "pyautogui.press('...')"
    end
  else "# " +:+ action.

(** [dragTo\((\d+),\s*(\d+)\)] *)
Definition drag_to_pattern (s : string) : option (string * string) :=
  s ← lit "dragTo(" s;
  '(g1, s) ← digits1 s;
  s ← lit "," s;
  '(g2, s) ← digits1 (spaces s);
  _ ← lit ")" s;
  Some (g1, g2).

(** The substitution applied to a step's code when an adjustment to
    [(x, y)] exists for it.  [api_task] and [api_export] carry the same
    chain of tests, written out twice in the source. *)
Definition adjust_code (code : string) (x y : Z) : string :=
  if contains "doubleClick" code then double_click_code x y
  else if contains "rightClick" code then right_click_code x y
  else if contains "clicks=3" code then triple_click_code x y
  else if contains "click" (lower code) && contains "pyautogui.click" code
  then click_code x y
  else if contains "moveTo" code && contains "dragTo" code then
    match re_search drag_to_pattern code with
    | Some (g1, g2) =>
        "pyautogui.moveTo(" +:+ format_int x +:+ ", " +:+ format_int y
          +:+ "); pyautogui.dragTo(" +:+ g1 +:+ ", " +:+ g2 +:+ ")"
    | None => code
    end
  else code.

End Synth.

(** ** Event-to-step normalizer *)

Module Normalizer.
Import PyStr Events Synth.

(** Truth value of a number or [None] in a condition: [None] and zero
    are false. *)
Definition truthy (v : option Q) : bool :=
  match v with
  | Some q => negb (Qeq_bool q 0)
  | None => false
  end.

(** [pre_move.get(k)] on [pre_move = ce.get('pre_move', {})]. *)
Definition pre_move_get (k : pre_move -> option Q) (pm : option pre_move) : option Q :=
  pm ≫= k.

(** [pre_move[k]], evaluated only after [pre_move.get(k)] was found true. *)
Definition pre_move_item (k : pre_move -> option Q) (pm : option pre_move) : Q :=
  default 0%Q (pre_move_get k pm).

(** [max(0, q)] *)
Definition max0 (q : Q) : Q := if Qle_bool q 0 then 0%Q else q.

Definition capture_time (ce : event) : Q :=
  let start_time := default 0%Q (ev_start_time ce) in
  let pre_move := ev_pre_move ce in
  if truthy (pre_move_get pm_start_time pre_move)
     && truthy (pre_move_get pm_end_time pre_move) then
    let pm_start := pre_move_item pm_start_time pre_move in
    let pm_end := pre_move_item pm_end_time pre_move in
    let pm_duration := (pm_end - pm_start)%Q in
    (pm_start + pm_duration * (8 # 10))%Q
  else if truthy (pre_move_get pm_end_time pre_move) then
    max0 (pre_move_item pm_end_time pre_move - (3 # 10))%Q
  else
    max0 (start_time - (1 # 10))%Q.

(** The priority rule as the specification words it, a time stamp
    counting as set when its key is present. *)
Definition spec_capture_time (ce : event) : Q :=
  let start_time := default 0%Q (ev_start_time ce) in
  match ev_pre_move ce with
  | Some {| pm_start_time := Some pm_start; pm_end_time := Some pm_end |} =>
      (pm_start + (8 # 10) * (pm_end - pm_start))%Q
  | Some {| pm_start_time := None; pm_end_time := Some pm_end |} =>
      Qmax 0 (pm_end - (3 # 10))
  | _ => Qmax 0 (start_time - (1 # 10))
  end.

(** A key holding a number other than zero; a key that is absent or
    holds zero. *)
Definition holds (v : option Q) (q : Q) : Prop := v = Some q ∧ ¬ (q == 0)%Q.
Definition absent_or_zero (v : option Q) : Prop :=
  v = None ∨ ∃ q, v = Some q ∧ (q == 0)%Q.

Definition video_time_of (ce : event) (video_start_ts : Q) : Q :=
  (capture_time ce - video_start_ts)%Q.

(** The selection as the specification words it: the visible
    description when present and not empty, else the complete one. *)
Definition spec_description (ve ce : event) : string :=
  match ev_description ve with
  | Some d => if String.eqb d "" then default "" (ev_description ce) else d
  | None => default "" (ev_description ce)
  end.

(** [ve.get('description', ce.get('description', ''))] *)
Definition step_description (ve ce : event) : string :=
  match ev_description ve with
  | Some d => d
  | None => default "" (ev_description ce)
  end.

Record step := {
  index : nat;
  action : string;
  description : string;
  justification : string;
  code : string;
  coordinate_x : Z;
  coordinate_y : Z;
  has_coordinate : bool;
  video_time : Q
}.

Definition build_step (vis_events : list event) (video_start_ts : Q)
    (i : nat) (ce : event) : step :=
  let ve := default empty_event (vis_events !! i) in
  let x := get_x ce in
  let y := get_y ce in
  let video_time := video_time_of ce video_start_ts in
  let action := default "" (ev_action ce) in
  let description := step_description ve ce in
  let code := build_pyautogui_code action ce description in
  let has_coordinate :=
    (String.eqb action "click" || String.eqb action "drag")
    && (negb (x =? 0)%Z || negb (y =? 0)%Z) in
  {| index := i; action := action; description := description;
     justification := default "" (ev_justification ce);
     code := code; coordinate_x := x; coordinate_y := y;
     has_coordinate := has_coordinate; video_time := video_time |}.

(** [metadata.json] *)
Record metadata := { video_start_timestamp : option Q }.

(** A file found by [glob]: [str(f)] and [f.name]. *)
Record path := { path_str : string; path_name : string }.

(** The video decoder, an external collaborator: what it reports for
    the video stored at a path. *)
Record frame_source := {
  cap_frame_width : string -> Z;
  cap_frame_height : string -> Z;
  cap_fps : string -> Q;
  cap_frame_count : string -> Z;
  cap_read : string -> Z -> bool
}.

(** The content of [DATA_DIR / task_id]: absent files are [None]. *)
Record task_dir := {
  td_metadata : option metadata;
  td_mp4 : list path;
  td_vis : option (list event);
  td_complete : option (list event)
}.

(** The first [*.mp4] whose path does not mention [video_clips]. *)
Definition find_video (mp4 : list path) : option path :=
  head (filter (fun f => negb (contains "video_clips" (path_str f))) mp4).

Record task_data := {
  task_id : string;
  video_file : option string;
  video_start_ts : Q;
  video_width : Z;
  video_height : Z;
  steps : list step
}.

(** [int(v) or d] *)
Definition or_default (v d : Z) : Z := if (v =? 0)%Z then d else v.

Definition load_task_data (cv2 : frame_source) (DATA_DIR : gmap string task_dir)
    (tid : string) : option task_data :=
  match DATA_DIR !! tid with
  | None => None
  | Some task_dir =>
      let video_start_ts :=
        match td_metadata task_dir with
        | Some metadata => default 0%Q (video_start_timestamp metadata)
        | None => 0%Q
        end in
      let video_path := find_video (td_mp4 task_dir) in
      let '(video_width, video_height) :=
        match video_path with
        | Some f =>
            (or_default (cap_frame_width cv2 (path_str f)) 1920,
             or_default (cap_frame_height cv2 (path_str f)) 1080)
        | None => (1920%Z, 1080%Z)
        end in
      match td_complete task_dir with
      | None => None
      | Some complete_events =>
          let vis_events := default [] (td_vis task_dir) in
          Some {| task_id := tid;
                  video_file := path_name <$> video_path;
                  video_start_ts := video_start_ts;
                  video_width := video_width;
                  video_height := video_height;
                  steps := imap (build_step vis_events video_start_ts) complete_events |}
      end
  end.

End Normalizer.

(** ** Coordinate adjustment store *)

Module CoordStore.
Import PyStr Events Synth Normalizer.

Record xy := { xy_x : Z; xy_y : Z }.

(** One entry of [coordinate_adjustments.json].  An entry may lack the
    [original] key; the code tests for it. *)
Record adjustment := {
  adj_task_id : string;
  adj_step_index : Z;
  adj_x : Z;
  adj_y : Z;
  adj_original : option xy
}.

(** The key [f"{task_id}_{step_index}"]. *)
Definition adj_key (tid : string) (step_index : Z) : string :=
  tid +:+ "_" +:+ format_int step_index.

(** The file is read if it exists; otherwise the overlay is empty. *)
Definition load_coord_adjustments (coord_file : option (gmap string adjustment))
    : gmap string adjustment :=
  default ∅ coord_file.

(** Body of the request to [/api/update_coordinate]. *)
Record update_request := {
  ur_task_id : string;
  ur_step_index : Z;
  ur_x : Z;
  ur_y : Z;
  ur_original_x : Z;
  ur_original_y : Z
}.

(** The effect of [api_update_coordinate] on the file: its new content. *)
Definition api_update_coordinate (coord_file : option (gmap string adjustment))
    (data : update_request) : option (gmap string adjustment) :=
  let coord_adjustments := load_coord_adjustments coord_file in
  let key := adj_key (ur_task_id data) (ur_step_index data) in
  let original :=
    match coord_adjustments !! key ≫= adj_original with
    | Some original => original
    | None => {| xy_x := ur_original_x data; xy_y := ur_original_y data |}
    end in
  Some (<[key := {| adj_task_id := ur_task_id data;
                    adj_step_index := ur_step_index data;
                    adj_x := ur_x data;
                    adj_y := ur_y data;
                    adj_original := Some original |}]> coord_adjustments).

(** What the file holds for a key after a call. *)
Definition stored_original (coord_file : option (gmap string adjustment))
    (key : string) : option xy :=
  load_coord_adjustments coord_file !! key ≫= adj_original.

Definition stored_current (coord_file : option (gmap string adjustment))
    (key : string) : option (Z * Z) :=
  (fun adj => (adj_x adj, adj_y adj)) <$> load_coord_adjustments coord_file !! key.

Definition supplied_original (data : update_request) : xy :=
  {| xy_x := ur_original_x data; xy_y := ur_original_y data |}.

Definition request_key (data : update_request) : string :=
  adj_key (ur_task_id data) (ur_step_index data).

(** A sequence of calls, each one on the file the previous one left. *)
Definition run_updates (coord_file : option (gmap string adjustment))
    (calls : list update_request) : option (gmap string adjustment) :=
  fold_left api_update_coordinate calls coord_file.

(** The adjustment of one step, as [api_task] applies it. *)
Definition adjust_step (coord_adjustments : gmap string adjustment)
    (tid : string) (st : step) : step :=
  match coord_adjustments !! adj_key tid (Z.of_nat (index st)) with
  | Some adj =>
      {| index := index st; action := action st; description := description st;
         justification := justification st;
         code := adjust_code (code st) (adj_x adj) (adj_y adj);
         coordinate_x := adj_x adj; coordinate_y := adj_y adj;
         has_coordinate := has_coordinate st; video_time := video_time st |}
  | None => st
  end.

Inductive response (A : Type) :=
| Ok (body : A)
| Error (status : Z) (message : string).
Arguments Ok {A} body.
Arguments Error {A} status message.

Definition api_task (cv2 : frame_source) (DATA_DIR : gmap string task_dir)
    (coord_file : option (gmap string adjustment)) (tid : string)
    : response task_data :=
  match load_task_data cv2 DATA_DIR tid with
  | None => Error 404 "Task not found"
  | Some data =>
      match coord_file with
      | Some coord_adjustments =>
          Ok {| task_id := task_id data; video_file := video_file data;
                video_start_ts := video_start_ts data;
                video_width := video_width data;
                video_height := video_height data;
                steps := adjust_step coord_adjustments tid <$> steps data |}
      | None => Ok data
      end
  end.

End CoordStore.

(** ** Annotation state store *)

Module Annot.

(** A Python [dict] whose iteration order matters: keys in insertion
    order, without repetition. *)
Definition dict (V : Type) : Type := list (string * V).

(** [d.get(k)] *)
Fixpoint dict_get {V} (k : string) (d : dict V) : option V :=
  match d with
  | [] => None
  | (k', v) :: d' => if String.eqb k' k then Some v else dict_get k d'
  end.

(** [d[k] = v]: an existing key keeps its place, a new one goes last. *)
Fixpoint dict_set {V} (k : string) (v : V) (d : dict V) : dict V :=
  match d with
  | [] => [(k, v)]
  | (k', v') :: d' =>
      if String.eqb k' k then (k', v) :: d' else (k', v') :: dict_set k v d'
  end.

(** One record of [annotations.json].  [ann_mark] is [None] for a null
    mark. *)
Record annotation := {
  ann_mark : option string;
  ann_pass_reason : string;
  ann_scores : gmap string Z
}.

(** [load_annotations]: the file's content, or [{}] without a file. *)
Definition load_annotations (annotations_file : option (dict annotation))
    : dict annotation :=
  default [] annotations_file.

(** Body of the request to [/api/annotate]; [None] is an absent key. *)
Record annotate_request := {
  ar_task_id : string;
  ar_mark : option string;
  ar_pass_reason : option string;
  ar_scores : option (gmap string Z)
}.

(** The effect of [api_annotate] on the file: its new content. *)
Definition api_annotate (annotations_file : option (dict annotation))
    (data : annotate_request) : option (dict annotation) :=
  let tid := ar_task_id data in
  let mark := ar_mark data in
  let pass_reason := default "" (ar_pass_reason data) in
  let scores := default ∅ (ar_scores data) in
  let annotations := load_annotations annotations_file in
  Some (dict_set tid {| ann_mark := mark; ann_pass_reason := pass_reason;
                        ann_scores := scores |} annotations).

End Annot.

(** ** Export assembler *)

Module Exporter.
Import PyStr Events Synth Normalizer CoordStore Annot.

(** A row of the task registry read by [load_tasks]. *)
Record task_info := {
  ti_instruction : string;
  ti_worker_id : string;
  ti_worker_name : string
}.

Record traj_entry := {
  te_index : nat;
  te_code : string;
  te_screenshot : string;
  te_justification : string
}.

Record score_snapshot := {
  correctness : Z;
  difficulty : Z;
  knowledge_richness : Z;
  task_value : Z
}.

(** The per-task dataset record.  [cd_task_id] is
    [int(task_id) if task_id.isdigit() else task_id]. *)
Record cua_data := {
  cd_task_id : Z + string;
  cd_instruction : string;
  cd_pass_reason : string;
  cd_scores : score_snapshot;
  cd_traj : list traj_entry
}.

(** [[tid for tid, ann in annotations.items() if ann.get('mark') == 'pass']] *)
Definition is_pass (ann : annotation) : bool :=
  match ann_mark ann with
  | Some m => String.eqb m "pass"
  | None => false
  end.

Fixpoint passed_tasks (annotations : dict annotation) : list string :=
  match annotations with
  | [] => []
  | (tid, ann) :: rest =>
      if is_pass ann then tid :: passed_tasks rest else passed_tasks rest
  end.

(** [int(q)]: truncation towards zero. *)
Definition py_int (q : Q) : Z := Z.quot (Qnum q) (Zpos (Qden q)).

(** [cap.get(cv2.CAP_PROP_FPS) or 30] *)
Definition fps_or_30 (fps : Q) : Q := if Qeq_bool fps 0 then 30%Q else fps.

Definition screenshot_name (i : nat) : string :=
  "step_" +:+ format_int (Z.of_nat i) +:+ ".png".

Definition task_output_dir (tid : string) : string := "task_" +:+ tid.

(** One turn of the loop over the steps: the trajectory entry, and the
    screenshot file when the decoder returned a frame. *)
Definition export_step (cv2 : frame_source) (coord_adjustments : gmap string adjustment)
    (tid : string) (video : string) (fps : Q) (total_frames : Z) (st : step)
    : traj_entry * list string :=
  let frame_num := py_int (video_time st * fps)%Q in
  let frame_num := Z.max 0 (Z.min frame_num (total_frames - 1)) in
  let ret := cap_read cv2 video frame_num in
  let name := screenshot_name (index st) in
  let written := if ret then [task_output_dir tid +:+ "/" +:+ name] else [] in
  let code :=
    match coord_adjustments !! adj_key tid (Z.of_nat (index st)) with
    | Some adj => adjust_code (code st) (adj_x adj) (adj_y adj)
    | None => code st
    end in
  ({| te_index := index st; te_code := code;
      te_screenshot := task_output_dir tid +:+ "/" +:+ name;
      te_justification := justification st |}, written).

Definition export_task_id (tid : string) : Z + string :=
  if isdigit tid then inl (int_of_digits tid) else inr tid.

Definition empty_annotation : annotation :=
  {| ann_mark := None; ann_pass_reason := ""; ann_scores := ∅ |}.

Definition score (ann : annotation) (dimension : string) : Z :=
  default 0%Z (ann_scores ann !! dimension).

(** One turn of the loop over [passed_tasks]; [None] is a [continue]. *)
Definition export_task (cv2 : frame_source) (DATA_DIR : gmap string task_dir)
    (tasks : gmap string task_info) (annotations : dict annotation)
    (coord_adjustments : gmap string adjustment) (tid : string)
    : option (cua_data * list string) :=
  let task_info := tasks !! tid in
  task_data ← load_task_data cv2 DATA_DIR tid;
  let ann := default empty_annotation (dict_get tid annotations) in
  video_file ← (DATA_DIR !! tid) ≫= (fun d => find_video (td_mp4 d));
  let video := path_str video_file in
  let fps := fps_or_30 (cap_fps cv2 video) in
  let total_frames := cap_frame_count cv2 video in
  let turns :=
    export_step cv2 coord_adjustments tid video fps total_frames <$> steps task_data in
  Some ({| cd_task_id := export_task_id tid;
           cd_instruction := default "" (ti_instruction <$> task_info);
           cd_pass_reason := ann_pass_reason ann;
           cd_scores := {| correctness := score ann "correctness";
                           difficulty := score ann "difficulty";
                           knowledge_richness := score ann "knowledge_richness";
                           task_value := score ann "task_value" |};
           cd_traj := fst <$> turns |},
        concat (snd <$> turns)).

(** The tasks the loop got through, each with what it produced. *)
Definition export_loop (cv2 : frame_source) (DATA_DIR : gmap string task_dir)
    (tasks : gmap string task_info) (annotations : dict annotation)
    (coord_adjustments : gmap string adjustment) (passed : list string)
    : list (string * (cua_data * list string)) :=
  omap (fun tid =>
          (fun r => (tid, r)) <$>
            export_task cv2 DATA_DIR tasks annotations coord_adjustments tid)
       passed.

(** The per-task file [task_<id>/task_<id>.json], relative to the
    output directory. *)
Definition task_file (tid : string) : string :=
  task_output_dir tid +:+ "/task_" +:+ tid +:+ ".json".

(** A file of the output directory.  The directory outlives a run: it
    is created if missing and nothing in it is ever removed.  Only
    files are recorded, as only files are packed: the sub-directory
    [task_<id>] that the loop makes before it looks for the video holds
    nothing when the task is then skipped. *)
Inductive output_file :=
| TaskJson (d : cua_data)
| AllTasksJson (all_data : list cua_data)
| Frame
| CoordJson (coord_adjustments : gmap string adjustment)
| Archive
| OtherFile (content : string).

Definition coord_path : string := "coordinate_adjustments.json".
Definition all_tasks_path : string := "all_tasks.json".
Definition zip_path : string := "export.zip".

(** The output directory as a whole, paths relative to it:
    [coord_file] is its file [coordinate_adjustments.json] and
    [OUTPUT_DIR] the other files it holds, those of earlier exports
    among them. *)
Definition whole_output_dir (coord_file : option (gmap string adjustment))
    (OUTPUT_DIR : gmap string output_file) : gmap string output_file :=
  match coord_file with
  | Some coord_adjustments => <[coord_path := CoordJson coord_adjustments]> OUTPUT_DIR
  | None => delete coord_path OUTPUT_DIR
  end.

(** The name of a file: what follows the last [/] of its path. *)
Fixpoint basename_acc (segment path : string) : string :=
  match path with
  | EmptyString => segment
  | String c path' =>
      if Ascii.eqb c "/" then basename_acc EmptyString path'
      else basename_acc (segment +:+ String c EmptyString) path'
  end.

Definition basename (path : string) : string := basename_acc EmptyString path.

(** The last character of a string. *)
Fixpoint last_char (s : string) : option ascii :=
  match s with
  | EmptyString => None
  | String c s' =>
      match last_char s' with
      | Some x => Some x
      | None => Some c
      end
  end.

(** What one turn of the loop over the tasks writes: the screenshots
    the decoder returned, then the per-task file. *)
Definition write_task (tree : gmap string output_file)
    (turn : string * (cua_data * list string)) : gmap string output_file :=
  let '(tid, (d, files)) := turn in
  <[task_file tid := TaskJson d]> (foldl (fun t f => <[f := Frame]> t) tree files).

(** The archive: every file under the directory, by relative path,
    except those named [export.zip]. *)
Definition make_archive (tree : gmap string output_file) : gmap string output_file :=
  filter (fun entry => basename entry.1 ≠ zip_path) tree.

(** What one run of [api_export] writes and answers: the per-task files
    and screenshots of this run, the content of [all_tasks.json], the
    message and count of the response, the entries of the archive, and
    the output directory as the run leaves it (files of earlier runs
    included).  The resolved paths of the response are left out. *)
Record export_result := {
  er_task_files : list (string * cua_data);
  er_screenshots : list string;
  er_all_data : list cua_data;
  er_message : string;
  er_count : nat;
  er_archive : gmap string output_file;
  er_output_dir : gmap string output_file
}.

Definition api_export (cv2 : frame_source) (DATA_DIR : gmap string task_dir)
    (tasks : gmap string task_info)
    (annotations_file : option (dict annotation))
    (coord_file : option (gmap string adjustment))
    (OUTPUT_DIR : gmap string output_file) : export_result :=
  let annotations := load_annotations annotations_file in
  let coord_adjustments := load_coord_adjustments coord_file in
  let passed := passed_tasks annotations in
  let exported := export_loop cv2 DATA_DIR tasks annotations coord_adjustments passed in
  let all_data := (fun '(_, (d, _)) => d) <$> exported in
  let tree := foldl write_task (whole_output_dir coord_file OUTPUT_DIR) exported in
  let tree := <[all_tasks_path := AllTasksJson all_data]> tree in
  {| er_task_files := (fun '(tid, (d, _)) => (task_file tid, d)) <$> exported;
     er_screenshots := concat ((fun '(_, (_, files)) => files) <$> exported);
     er_all_data := all_data;
     er_message := "Exported " +:+ format_int (Z.of_nat (length passed)) +:+ " passed cases";
     er_count := length passed;
     er_archive := make_archive tree;
     er_output_dir := <[zip_path := Archive]> tree |}.

End Exporter.

(** ** Concrete inputs used by the examples below *)

Module Samples.
Import PyStr Events Synth Normalizer CoordStore Annot Exporter.

Definition first_call : update_request :=
  {| ur_task_id := "7"; ur_step_index := 2; ur_x := 150; ur_y := 250;
     ur_original_x := 100; ur_original_y := 200 |}.
Definition second_call : update_request :=
  {| ur_task_id := "7"; ur_step_index := 2; ur_x := 160; ur_y := 255;
     ur_original_x := 150; ur_original_y := 250 |}.
Definition third_call : update_request :=
  {| ur_task_id := "7"; ur_step_index := 2; ur_x := 161; ur_y := 256;
     ur_original_x := 160; ur_original_y := 255 |}.

(** A raw event that only carries a [pre_move] record and a start time. *)
Definition timed_event (pm : option pre_move) (start_time : option Q) : event :=
  {| ev_action := Some "click"; ev_coordinate := None;
     ev_start_time := start_time; ev_end_time := None; ev_pre_move := pm;
     ev_description := None; ev_justification := None |}.

(** [pre_move = {start_time: 10.0, end_time: 12.0}], [start_time: 9.0] *)
Definition full_window_event : event :=
  timed_event (Some {| pm_start_time := Some 10%Q; pm_end_time := Some 12%Q |})
              (Some 9%Q).

(** [pre_move = {end_time: 12.0}] *)
Definition end_only_event : event :=
  timed_event (Some {| pm_start_time := None; pm_end_time := Some 12%Q |})
              (Some 9%Q).

(** [pre_move = {start_time: 0, end_time: 12.0}], [start_time: 9.0] *)
Definition zero_start_event : event :=
  timed_event (Some {| pm_start_time := Some 0%Q; pm_end_time := Some 12%Q |})
              (Some 9%Q).

(** [pre_move = {start_time: -10.0, end_time: -5.0}] *)
Definition negative_window_event : event :=
  timed_event (Some {| pm_start_time := Some (-10)%Q; pm_end_time := Some (-5)%Q |})
              None.

(** A visible event whose description is the empty string, and its
    complete counterpart. *)
Definition redacted_visible_event : event :=
  {| ev_action := None; ev_coordinate := None; ev_start_time := None;
     ev_end_time := None; ev_pre_move := None; ev_description := Some "";
     ev_justification := None |}.

Definition described_complete_event : event :=
  {| ev_action := Some "click";
     ev_coordinate := Some {| coord_x := Some 100%Z; coord_y := Some 200%Z |};
     ev_start_time := Some 9%Q; ev_end_time := None; ev_pre_move := None;
     ev_description := Some "Click OK"; ev_justification := Some "confirm" |}.

(** Three steps that carry a coordinate, and an adjustment of step 0 of
    task 7 to (150, 250). *)
Definition pointer_event (action description : string) (x y : Z) : event :=
  {| ev_action := Some action;
     ev_coordinate := Some {| coord_x := Some x; coord_y := Some y |};
     ev_start_time := Some 9%Q; ev_end_time := None; ev_pre_move := None;
     ev_description := Some description; ev_justification := None |}.

Definition double_click_event : event :=
  pointer_event "click" "Double click the icon" 100 200.

Definition drag_pair_event : event :=
  pointer_event "drag" "Drag from (100, 200) to (300,400)" 100 200.

Definition drag_fallback_event : event :=
  pointer_event "drag" "Drag the slider" 100 200.

Definition adjusted_to_150_250 : gmap string adjustment :=
  {[ "7_0" := {| adj_task_id := "7"; adj_step_index := 0;
                 adj_x := 150; adj_y := 250;
                 adj_original := Some {| xy_x := 100; xy_y := 200 |} |} ]}.

Definition pass_annotation : annotation :=
  {| ann_mark := Some "pass"; ann_pass_reason := "clean run"; ann_scores := ∅ |}.

(** A task directory with its complete event log but without a video. *)
Definition dir_without_video : task_dir :=
  {| td_metadata := None; td_mp4 := []; td_vis := None;
     td_complete := Some [described_complete_event] |}.

Definition fail_annotation : annotation :=
  {| ann_mark := Some "fail"; ann_pass_reason := "wrong target";
     ann_scores := {[ "correctness" := 2%Z ]} |}.

(** A complete task directory, and a decoder that returns every frame. *)
Definition complete_dir : task_dir :=
  {| td_metadata := Some {| video_start_timestamp := Some 1%Q |};
     td_mp4 := [{| path_str := "data/1/video_clips_0.mp4"; path_name := "video_clips_0.mp4" |};
                {| path_str := "data/1/rec.mp4"; path_name := "rec.mp4" |}];
     td_vis := None;
     td_complete := Some [double_click_event] |}.

Definition any_video : frame_source :=
  {| cap_frame_width := fun _ => 1280%Z; cap_frame_height := fun _ => 720%Z;
     cap_fps := fun _ => 30%Q; cap_frame_count := fun _ => 900%Z;
     cap_read := fun _ _ => true |}.

Definition two_verdicts : dict annotation :=
  [("1", pass_annotation); ("2", fail_annotation)].

Definition unclear_request : annotate_request :=
  {| ar_task_id := "2"; ar_mark := None; ar_pass_reason := None;
     ar_scores := None |}.

(** A decoder that knows no video. *)
Definition no_video : frame_source :=
  {| cap_frame_width := fun _ => 0%Z; cap_frame_height := fun _ => 0%Z;
     cap_fps := fun _ => 0%Q; cap_frame_count := fun _ => 0%Z;
     cap_read := fun _ _ => false |}.

(** A task directory with a video but without the complete event log. *)
Definition dir_without_log : task_dir :=
  {| td_metadata := None;
     td_mp4 := [{| path_str := "data/7/rec.mp4"; path_name := "rec.mp4" |}];
     td_vis := Some [redacted_visible_event];
     td_complete := None |}.

End Samples.

(** ** Frame serving *)

Module Frames.
Import PyStr Events Normalizer CoordStore Exporter.

(** [max(0, min(frame_num, total_frames - 1))] *)
Definition clamp_frame (frame_num total_frames : Z) : Z :=
  Z.max 0 (Z.min frame_num (total_frames - 1)).

(** [serve_frame].  The image itself belongs to the decoder; the answer
    carries the number of the frame that was read and encoded. *)
Definition serve_frame (cv2 : frame_source) (DATA_DIR : gmap string task_dir)
    (tid : string) (video_time : Q) : response Z :=
  let video_file :=
    match DATA_DIR !! tid with
    | Some task_dir => find_video (td_mp4 task_dir)
    | None => None
    end in
  match video_file with
  | None => Error 404 "Video not found"
  | Some f =>
      let video := path_str f in
      let fps := fps_or_30 (cap_fps cv2 video) in
      let frame_num := py_int (video_time * fps)%Q in
      let total_frames := cap_frame_count cv2 video in
      let frame_num := clamp_frame frame_num total_frames in
      if cap_read cv2 video frame_num then Ok frame_num
      else Error 500 "Frame extraction failed"
  end.

End Frames.

(** ** Task registry *)

Module Registry.
Import PyStr Exporter.

(** A row as [csv.DictReader] yields it; [None] is a column the file
    does not have. *)
Record csv_row := {
  row_task_id : option string;
  row_instruction : option string;
  row_worker_id : option string;
  row_worker_name : option string
}.

(** [s.rstrip()], [s.lstrip()] and [s.strip()] *)
Fixpoint rstrip (s : string) : string :=
  match s with
  | EmptyString => EmptyString
  | String c s' =>
      match rstrip s' with
      | EmptyString => if is_space c then EmptyString else String c EmptyString
      | r => String c r
      end
  end.

Definition lstrip (s : string) : string := snd (span is_space s).

Definition strip (s : string) : string := rstrip (lstrip s).

Definition row_key (row : csv_row) : string :=
  strip (default "" (row_task_id row)).

Definition row_info (row : csv_row) : task_info :=
  {| ti_instruction := default "" (row_instruction row);
     ti_worker_id := default "" (row_worker_id row);
     ti_worker_name := default "" (row_worker_name row) |}.

(** One turn of the loop over the rows. *)
Definition add_row (tasks : gmap string task_info) (row : csv_row)
    : gmap string task_info :=
  let task_id := row_key row in
  if String.eqb task_id "" then tasks else <[task_id := row_info row]> tasks.

(** [load_tasks]; [None] is a missing CSV file. *)
Definition load_tasks (csv_file : option (list csv_row)) : gmap string task_info :=
  match csv_file with
  | Some rows => foldl add_row ∅ rows
  | None => ∅
  end.

End Registry.

(** ** Predicates used to state invariants *)

Module Invariants.
Import PyStr Events Synth Normalizer CoordStore Annot Exporter.

(** Every entry sits under the key of the task and step it names, and
    carries an original. *)
Definition well_keyed (coord_adjustments : gmap string adjustment) : Prop :=
  ∀ key adj, coord_adjustments !! key = Some adj →
    key = adj_key (adj_task_id adj) (adj_step_index adj)
    ∧ is_Some (adj_original adj).

(** Every character of [s] satisfies [p]; a text of ASCII characters
    only. *)
Fixpoint all_chars (p : ascii -> bool) (s : string) : bool :=
  match s with
  | EmptyString => true
  | String c s' => p c && all_chars p s'
  end.

Definition is_ascii (c : ascii) : bool := (nat_of_ascii c <? 128)%nat.

Definition ascii_only (s : string) : bool := all_chars is_ascii s.

(** The task ids of an annotation store, in iteration order. *)
Definition keys {V} (d : dict V) : list string := d.*1.

End Invariants.

(** ** The forms of a click *)

Module Variants.
Import PyStr Events Synth.



End Variants.

(** ** Further concrete inputs *)

Module Fixtures.
Import PyStr Events Synth Normalizer CoordStore Annot Exporter Frames Registry Samples.
Import Variants.

(** A request that adjusts step 0 of task 7 to (150, 250). *)
Definition adjust_step_0 : update_request :=
  {| ur_task_id := "7"; ur_step_index := 0; ur_x := 150; ur_y := 250;
     ur_original_x := 100; ur_original_y := 200 |}.

(** The same step of task 8. *)
Definition adjust_other_task : update_request :=
  {| ur_task_id := "8"; ur_step_index := 0; ur_x := 1; ur_y := 2;
     ur_original_x := 3; ur_original_y := 4 |}.

(** A data directory with one complete task, number 7. *)
Definition one_task : gmap string task_dir := {[ "7" := complete_dir ]}.

(** A request marking task 2 as passed. *)
Definition pass_request : annotate_request :=
  {| ar_task_id := "2"; ar_mark := Some "pass";
     ar_pass_reason := Some "fixed"; ar_scores := None |}.

Definition fail_request : annotate_request :=
  {| ar_task_id := "1"; ar_mark := Some "fail";
     ar_pass_reason := None; ar_scores := None |}.

(** A decoder for a video of 900 frames at 30 frames per second. *)
Definition short_video : frame_source := any_video.





(** The record exported for task 1 of [complete_dir]. *)
Definition record_of_task_1 : cua_data :=
  {| cd_task_id := inl 1%Z; cd_instruction := "";
     cd_pass_reason := "clean run";
     cd_scores := {| correctness := 0; difficulty := 0;
                     knowledge_richness := 0; task_value := 0 |};
     cd_traj := [{| te_index := 0;
                    te_code := "pyautogui.doubleClick(100, 200)";
                    te_screenshot := "task_1/step_0.png";
                    te_justification := "" |}] |}.

(** Two runs of the export on one output directory: task 1 is marked
    "pass" at the first and "fail" at the second. *)
Definition first_export : export_result :=
  api_export any_video {["1" := complete_dir]} ∅
    (Some [("1", pass_annotation)]) None ∅.

Definition second_export : export_result :=
  api_export any_video {["1" := complete_dir]} ∅
    (Some [("1", fail_annotation)]) None (er_output_dir first_export).

Definition registry_rows : list csv_row :=
  [ {| row_task_id := Some " 7 "; row_instruction := Some "Open the file";
       row_worker_id := Some "w1"; row_worker_name := Some "Ann" |};
    {| row_task_id := Some "  "; row_instruction := Some "blank";
       row_worker_id := None; row_worker_name := None |};
    {| row_task_id := Some "7"; row_instruction := Some "Close the file";
       row_worker_id := Some "w2"; row_worker_name := Some "Bob" |} ].

End Fixtures.

(** * Properties *)

Import PyStr Events Synth Normalizer CoordStore Annot Exporter Samples.
Import Variants Fixtures.

(** ** Coordinate adjustment store: the original is written once *)

Section write_once.

Implicit Types (coord_file : option (gmap string adjustment)).
Implicit Types (data : update_request) (key : string).

Lemma stored_original_same coord_file data :
  stored_original (api_update_coordinate coord_file data) (request_key data)
  = Some (default (supplied_original data)
                  (stored_original coord_file (request_key data))).
Proof.
  unfold stored_original, api_update_coordinate, request_key; simpl.
  rewrite lookup_insert_eq; simpl.
  by destruct (load_coord_adjustments coord_file !! _ ≫= adj_original).
Qed.

Lemma stored_original_other coord_file data key :
  request_key data ≠ key →
  stored_original (api_update_coordinate coord_file data) key
  = stored_original coord_file key.
Proof.
  intros Hne. unfold stored_original, api_update_coordinate; simpl.
  by rewrite lookup_insert_ne.
Qed.

(** Once a key has an original, no call changes it, whatever the call's
    key and whatever original it supplies. *)
Lemma stored_original_kept coord_file data key o :
  stored_original coord_file key = Some o →
  stored_original (api_update_coordinate coord_file data) key = Some o.
Proof.
  intros Ho. destruct (decide (request_key data = key)) as [<-|Hne].
  - by rewrite stored_original_same, Ho.
  - by rewrite stored_original_other.
Qed.

Lemma run_updates_kept calls : ∀ coord_file key o,
  stored_original coord_file key = Some o →
  stored_original (run_updates coord_file calls) key = Some o.
Proof.
  induction calls as [|data calls IH]; intros coord_file key o Ho; [done|].
  apply IH. by apply stored_original_kept.
Qed.

(** C1. For every file content and every call of
    [api_update_coordinate]: the stored current coordinate of the call's
    key becomes the supplied [(x, y)]; an original already stored for
    that key is kept as it was, the supplied one being ignored; when the
    key has no original yet, the supplied one is stored; and after any
    further calls (on this key with other originals, or on other keys)
    the stored original is still the one supplied by the first call. *)
Theorem original_write_once coord_file data :
  let key := request_key data in
  let after := api_update_coordinate coord_file data in
  stored_current after key = Some (ur_x data, ur_y data)
  ∧ (∀ o, stored_original coord_file key = Some o →
          stored_original after key = Some o)
  ∧ (stored_original coord_file key = None →
     stored_original after key = Some (supplied_original data))
  ∧ (∀ later, stored_original coord_file key = None →
       stored_original (run_updates after later) key
       = Some (supplied_original data)).
Proof.
  intros key after. repeat split.
  - unfold stored_current, after, api_update_coordinate, key, request_key; simpl.
    by rewrite lookup_insert_eq.
  - intros o Ho. by apply stored_original_kept.
  - intros Hnone. subst key after. by rewrite stored_original_same, Hnone.
  - intros later Hnone. apply run_updates_kept.
    subst key after. by rewrite stored_original_same, Hnone.
Qed.

End write_once.

Lemma original_write_once_witness :
  stored_original None "7_2" = None
  ∧ stored_original
      (run_updates (api_update_coordinate None first_call) [second_call; third_call])
      "7_2"
    = Some {| xy_x := 100; xy_y := 200 |}.
Proof.
  split; [reflexivity|].
  exact (proj2 (proj2 (proj2 (original_write_once None first_call)))
           [second_call; third_call] eq_refl).
Defined.

(** ** Normalizer: capture time *)

Section capture.

Lemma max0_Qmax q : (max0 q == Qmax 0 q)%Q.
Proof.
  unfold max0. destruct (Qle_bool q 0) eqn:E.
  - apply Qle_bool_iff in E. symmetry. by apply Q.max_l.
  - symmetry. apply Q.max_r. apply Qlt_le_weak, Qnot_le_lt.
    intros H. apply Qle_bool_iff in H. congruence.
Qed.

Lemma max0_nonneg q : (0 <= max0 q)%Q.
Proof. rewrite max0_Qmax. apply Q.le_max_l. Qed.

Lemma truthy_holds v q : holds v q → truthy v = true.
Proof.
  intros [-> Hq]; simpl. apply negb_true_iff.
  destruct (Qeq_bool q 0) eqn:E; [|done]. by apply Qeq_bool_iff in E.
Qed.

Lemma truthy_absent v : absent_or_zero v → truthy v = false.
Proof.
  intros [->|(q & -> & Hq)]; simpl; [done|].
  apply negb_false_iff. by apply Qeq_bool_iff.
Qed.

Lemma truthy_inv v : truthy v = true → ∃ q, holds v q.
Proof.
  destruct v as [q|]; simpl; [|done]. intros H. exists q. split; [done|].
  intros Hq. apply Qeq_bool_iff in Hq. rewrite Hq in H. done.
Qed.

(** C2 (amended). The first matching rule decides the capture time,
    a time stamp counting as set when its key holds a number other than
    zero: with both [pre_move] stamps set, [pm_start + 0.8 * (pm_end -
    pm_start)]; else with [pre_move.end_time] set, [max(0, pm_end -
    0.3)]; else [max(0, start_time - 0.1)]. *)
Theorem capture_time_priority (ce : event) :
  let start_time := default 0%Q (ev_start_time ce) in
  let pm_start := pre_move_get pm_start_time (ev_pre_move ce) in
  let pm_end := pre_move_get pm_end_time (ev_pre_move ce) in
  (∀ s e, holds pm_start s → holds pm_end e →
          (capture_time ce == s + (8 # 10) * (e - s))%Q)
  ∧ (∀ e, absent_or_zero pm_start → holds pm_end e →
          (capture_time ce == Qmax 0 (e - (3 # 10)))%Q)
  ∧ (absent_or_zero pm_end →
     (capture_time ce == Qmax 0 (start_time - (1 # 10)))%Q).
Proof.
  intros start_time pm_start pm_end. unfold capture_time.
  fold pm_start pm_end start_time. repeat split.
  - intros s e Hs He.
    rewrite (truthy_holds _ _ Hs), (truthy_holds _ _ He); simpl.
    unfold pre_move_item. fold pm_start pm_end.
    destruct Hs as [-> _], He as [-> _]; simpl. ring.
  - intros e Hs He.
    rewrite (truthy_absent _ Hs), (truthy_holds _ _ He); simpl.
    unfold pre_move_item. fold pm_end. destruct He as [-> _]; simpl.
    apply max0_Qmax.
  - intros He. rewrite (truthy_absent _ He), andb_false_r.
    apply max0_Qmax.
Qed.

(** C3 (amended). The capture time is clamped at zero in the end-only
    and the fallback rule; the full-window rule applies no clamp, and
    its value is not negative when both [pre_move] stamps are not
    negative.  In these cases the video time of the step is at least
    minus the recording start offset. *)
Theorem video_time_lower_bound (vis_events : list event) (i : nat)
    (ce : event) (video_start_ts : Q) :
  (∀ s e, holds (pre_move_get pm_start_time (ev_pre_move ce)) s →
          holds (pre_move_get pm_end_time (ev_pre_move ce)) e →
          (0 <= s)%Q ∧ (0 <= e)%Q) →
  (0 <= capture_time ce)%Q
  ∧ (- video_start_ts <= video_time (build_step vis_events video_start_ts i ce))%Q.
Proof.
  intros Hwin.
  assert (Hcap : (0 <= capture_time ce)%Q).
  { unfold capture_time.
    destruct (truthy (pre_move_get pm_start_time (ev_pre_move ce))) eqn:Es;
    destruct (truthy (pre_move_get pm_end_time (ev_pre_move ce))) eqn:Ee;
      simpl; try apply max0_nonneg.
    apply truthy_inv in Es as [s Hs]. apply truthy_inv in Ee as [e He].
    destruct (Hwin s e Hs He) as [Hs0 He0].
    unfold pre_move_item. destruct Hs as [-> _], He as [-> _]; simpl. lra. }
  split; [done|]. simpl. unfold video_time_of. lra.
Qed.

End capture.

Lemma capture_time_priority_witness :
  holds (Some 10%Q) 10 ∧ holds (Some 12%Q) 12
  ∧ (capture_time full_window_event == 10 + (8 # 10) * (12 - 10))%Q.
Proof.
  assert (H10 : holds (Some 10%Q) 10) by (split; [reflexivity | discriminate]).
  assert (H12 : holds (Some 12%Q) 12) by (split; [reflexivity | discriminate]).
  split; [exact H10 | split; [exact H12 |]].
  exact (proj1 (capture_time_priority full_window_event) 10%Q 12%Q H10 H12).
Defined.

(** The example of the specification: the full window gives 11.6. *)
Example capture_time_full_window :
  (capture_time full_window_event == 116 # 10)%Q.
Proof. reflexivity. Qed.

Example capture_time_end_only :
  (capture_time end_only_event == 117 # 10)%Q.
Proof. reflexivity. Qed.

(** C2, as stated, fails on an event whose [pre_move.start_time] is
    present and zero: both stamps are present, yet the code takes the
    end-only rule (11.7) where the stated rule gives 9.6. *)
Lemma capture_time_priority_counterexample :
  (capture_time zero_start_event == 117 # 10)%Q
  ∧ (spec_capture_time zero_start_event == 96 # 10)%Q
  ∧ ¬ (capture_time zero_start_event == spec_capture_time zero_start_event)%Q.
Proof. repeat split; discriminate. Qed.

Lemma video_time_lower_bound_witness :
  (0 <= capture_time full_window_event)%Q
  ∧ (- 5 <= video_time (build_step [] 5 0 full_window_event))%Q.
Proof.
  apply (video_time_lower_bound [] 0 full_window_event 5).
  intros s e [Hs _] [He _]. simpl in Hs, He.
  injection Hs as <-. injection He as <-. split; discriminate.
Defined.

(** C3, as stated, fails on an event whose [pre_move] window lies at
    negative time stamps: the full-window rule yields -6, unclamped, and
    with a recording start offset of 0 the video time is below -0. *)
Lemma video_time_lower_bound_counterexample :
  (capture_time negative_window_event == -6)%Q
  ∧ ¬ (- 0 <= video_time (build_step [] 0 0 negative_window_event))%Q.
Proof. split; [reflexivity|]. intros H. by vm_compute in H. Qed.

(** ** Normalizer: description, and the not-found result *)

(** C4 (amended). The description of step [i] is the visible event's
    description whenever the visible log has an event at [i] that
    carries a description, be it empty; otherwise it is the complete
    event's description (the empty string when that one has none). *)
Theorem step_description_selection (vis_events : list event)
    (video_start_ts : Q) (i : nat) (ce : event) :
  let st := build_step vis_events video_start_ts i ce in
  (∀ ve d, vis_events !! i = Some ve → ev_description ve = Some d →
           description st = d)
  ∧ ((vis_events !! i = None
      ∨ ∃ ve, vis_events !! i = Some ve ∧ ev_description ve = None) →
     description st = default "" (ev_description ce)).
Proof.
  simpl. unfold step_description. split.
  - intros ve d -> Hd; simpl. by rewrite Hd.
  - intros [-> | (ve & -> & Hd)]; simpl; [done|]. by rewrite Hd.
Qed.

Lemma step_description_selection_witness :
  description (build_step [redacted_visible_event] 0 0 described_complete_event) = ""
  ∧ description (build_step [] 0 0 described_complete_event) = "Click OK".
Proof.
  split.
  - exact (proj1 (step_description_selection [redacted_visible_event] 0 0
                    described_complete_event)
             redacted_visible_event "" eq_refl eq_refl).
  - exact (proj2 (step_description_selection [] 0 0 described_complete_event)
             (or_introl eq_refl)).
Defined.

(** C4, as stated, fails when the visible event carries an empty
    description: the step's description is the empty string, not the
    complete event's description. *)
Lemma step_description_counterexample :
  description (build_step [redacted_visible_event] 0 0 described_complete_event) = ""
  ∧ spec_description redacted_visible_event described_complete_event = "Click OK"
  ∧ description (build_step [redacted_visible_event] 0 0 described_complete_event)
    ≠ spec_description redacted_visible_event described_complete_event.
Proof. repeat split; discriminate. Qed.

(** C9. When the task's directory is absent, or present without the
    complete event log, [load_task_data] returns [None], so no step is
    produced, and [api_task] answers 404 with "Task not found". *)
Theorem missing_log_not_found (cv2 : frame_source)
    (DATA_DIR : gmap string task_dir)
    (coord_file : option (gmap string adjustment)) (tid : string) :
  (DATA_DIR !! tid = None
   ∨ ∃ d, DATA_DIR !! tid = Some d ∧ td_complete d = None) →
  load_task_data cv2 DATA_DIR tid = None
  ∧ api_task cv2 DATA_DIR coord_file tid = Error 404 "Task not found".
Proof.
  intros H.
  assert (Hnone : load_task_data cv2 DATA_DIR tid = None).
  { unfold load_task_data. destruct H as [-> | (d & -> & Hd)]; [done|].
    rewrite Hd. by destruct (find_video (td_mp4 d)). }
  split; [done|]. unfold api_task. by rewrite Hnone.
Qed.

Lemma missing_log_not_found_witness :
  load_task_data no_video {["7" := dir_without_log]} "7" = None
  ∧ api_task no_video {["7" := dir_without_log]} None "7"
    = Error 404 "Task not found".
Proof.
  apply missing_log_not_found. right. exists dir_without_log.
  split; reflexivity.
Defined.

(** Conversely the normalizer answers whenever the directory and the
    complete log are there, with one step per complete event. *)
Lemma load_task_data_found (cv2 : frame_source)
    (DATA_DIR : gmap string task_dir) (tid : string) d complete_events :
  DATA_DIR !! tid = Some d → td_complete d = Some complete_events →
  ∃ data, load_task_data cv2 DATA_DIR tid = Some data
          ∧ length (steps data) = length complete_events.
Proof.
  intros Hd Hc. unfold load_task_data. rewrite Hd, Hc.
  destruct (find_video (td_mp4 d)); eexists; split; try reflexivity;
    simpl; by rewrite length_imap.
Qed.

(** ** Annotation store *)

Section annotation_store.

Lemma dict_get_set_eq {V} k (v : V) d : dict_get k (dict_set k v d) = Some v.
Proof.
  induction d as [|[k' v'] d IH]; simpl.
  - by rewrite String.eqb_refl.
  - destruct (String.eqb k' k) eqn:E; simpl; by rewrite E.
Qed.

Lemma dict_get_set_ne {V} k k' (v : V) d :
  k' ≠ k → dict_get k' (dict_set k v d) = dict_get k' d.
Proof.
  intros Hne. induction d as [|[k0 v0] d IH]; simpl.
  - destruct (String.eqb k k') eqn:E; [|done].
    apply String.eqb_eq in E. congruence.
  - destruct (String.eqb k0 k) eqn:E; simpl; [|by rewrite IH].
    apply String.eqb_eq in E. subst k0.
    destruct (String.eqb k k') eqn:E'; [|done].
    apply String.eqb_eq in E'. congruence.
Qed.

(** C8. After [api_annotate], the record stored for the request's task
    is exactly the supplied mark (pass, fail, another string, or null),
    reason and scores, whatever was stored before; the record of every
    other task is what it was. *)
Theorem annotate_full_replace (annotations_file : option (dict annotation))
    (data : annotate_request) :
  let after := load_annotations (api_annotate annotations_file data) in
  dict_get (ar_task_id data) after
  = Some {| ann_mark := ar_mark data;
            ann_pass_reason := default "" (ar_pass_reason data);
            ann_scores := default ∅ (ar_scores data) |}
  ∧ ∀ other, other ≠ ar_task_id data →
      dict_get other after = dict_get other (load_annotations annotations_file).
Proof.
  simpl. split; [apply dict_get_set_eq|].
  intros other Hne. by apply dict_get_set_ne.
Qed.

End annotation_store.

(** ** Export assembler *)

Section export.

Lemma string_length_app (a b : string) :
  String.length (a +:+ b) = String.length a + String.length b.
Proof. induction a as [|c a IH]; simpl; [done|]. by rewrite IH. Qed.

Lemma string_app_inj_length (a b x y : string) :
  String.length a = String.length b → a +:+ x = b +:+ y → a = b.
Proof.
  revert b. induction a as [|c a IH]; intros [|c' b]; simpl; try done.
  intros [= Hlen] [= -> Happ]. f_equal. by apply IH.
Qed.

Lemma task_file_inj (t1 t2 : string) : task_file t1 = task_file t2 → t1 = t2.
Proof.
  unfold task_file, task_output_dir. intros H.
  assert (Hlen : String.length t1 = String.length t2).
  { apply (f_equal String.length) in H.
    rewrite !string_length_app in H. simpl in H. lia. }
  simpl in H. injection H as H.
  by apply string_app_inj_length in H.
Qed.

Lemma is_pass_spec (ann : annotation) :
  is_pass ann = true ↔ ann_mark ann = Some "pass".
Proof.
  unfold is_pass. destruct (ann_mark ann) as [m|]; [|done].
  rewrite String.eqb_eq. split; congruence.
Qed.

Lemma elem_of_passed_tasks (annotations : dict annotation) (tid : string) :
  tid ∈ passed_tasks annotations
  ↔ ∃ ann, (tid, ann) ∈ annotations ∧ ann_mark ann = Some "pass".
Proof.
  induction annotations as [|[k a] rest IH]; simpl.
  - split; [by intros ?%elem_of_nil | by intros (? & ?%elem_of_nil & _)].
  - destruct (is_pass a) eqn:E.
    + rewrite elem_of_cons, IH. split.
      * intros [-> | (ann & Hin & Hm)].
        -- exists a. split; [left | by apply is_pass_spec].
        -- exists ann. split; [by right | done].
      * intros (ann & Hin & Hm). apply elem_of_cons in Hin as [[= -> ->] | Hin];
          [by left | right; eauto].
    + rewrite IH. split.
      * intros (ann & Hin & Hm). exists ann. split; [by right | done].
      * intros (ann & Hin & Hm). apply elem_of_cons in Hin as [[= -> ->] | Hin];
          [|eauto]. apply is_pass_spec in Hm. congruence.
Qed.

Lemma omap_length_le {A B} (f : A → option B) (l : list A) :
  (length (omap f l) <= length l)%nat.
Proof.
  induction l as [|a l IH]; [done|]. cbn [omap list_omap].
  destruct (f a); cbn [length]; lia.
Qed.

Context (cv2 : frame_source) (DATA_DIR : gmap string task_dir).
Context (tasks : gmap string task_info).
Context (annotations_file : option (dict annotation)).
Context (coord_file : option (gmap string adjustment)).

Local Abbreviation annotations := (load_annotations annotations_file).
Local Abbreviation run_export_task :=
  (export_task cv2 DATA_DIR tasks annotations (load_coord_adjustments coord_file)).

Lemma elem_of_export_loop (passed : list string) tid r :
  (tid, r) ∈ export_loop cv2 DATA_DIR tasks annotations
               (load_coord_adjustments coord_file) passed
  ↔ tid ∈ passed ∧ run_export_task tid = Some r.
Proof.
  unfold export_loop. rewrite list_elem_of_omap. split.
  - intros (t & Hin & Heq). destruct (run_export_task t) eqn:E; simpl in Heq; [|done].
    injection Heq as <- <-. done.
  - intros [Hin Heq]. exists tid. split; [done|]. by rewrite Heq.
Qed.

Lemma last_char_None (s : string) : last_char s = None → s = "".
Proof. destruct s as [|c s]; [done|]. cbn [last_char]. by destruct (last_char s). Qed.

Lemma last_char_app (a b : string) (x : ascii) :
  last_char b = Some x → last_char (a +:+ b) = Some x.
Proof.
  intros Hb. induction a as [|c a IH]; [done|].
  change (String c a +:+ b) with (String c (a +:+ b)).
  cbn [last_char]. by rewrite IH.
Qed.

Lemma last_char_task_file (tid : string) : last_char (task_file tid) = Some "n"%char.
Proof. unfold task_file. by do 3 apply last_char_app. Qed.

Lemma last_char_screenshot (tid : string) (i : nat) :
  last_char (task_output_dir tid +:+ "/" +:+ screenshot_name i) = Some "g"%char.
Proof. unfold screenshot_name. by do 4 apply last_char_app. Qed.

Lemma last_char_basename_acc (path segment : string) (x : ascii) :
  last_char path = Some x → x ≠ "/"%char →
  last_char (basename_acc segment path) = Some x.
Proof.
  intros Hlast Hx. revert segment Hlast.
  induction path as [|c path IH]; intros segment; [done|].
  cbn [last_char basename_acc]. destruct (last_char path) as [y|] eqn:E.
  - intros [= ->]. destruct (Ascii.eqb c "/"); by apply IH.
  - intros [= ->]. apply last_char_None in E as ->.
    destruct (Ascii.eqb x "/") eqn:Ex; [by apply Ascii.eqb_eq in Ex|].
    cbn [basename_acc]. by apply last_char_app.
Qed.

Lemma task_file_not_zip (tid : string) : basename (task_file tid) ≠ zip_path.
Proof.
  intros H. pose proof (last_char_basename_acc (task_file tid) "" "n"
                          (last_char_task_file tid) ltac:(done)) as Hn.
  fold (basename (task_file tid)) in Hn. by rewrite H in Hn.
Qed.

Lemma task_file_head (tid : string) : ∃ rest, task_file tid = String "t" rest.
Proof. unfold task_file, task_output_dir. eexists. reflexivity. Qed.

Lemma make_archive_lookup (tree : gmap string output_file) (path : string) :
  basename path ≠ zip_path → make_archive tree !! path = tree !! path.
Proof.
  intros Hname. unfold make_archive. apply option_eq. intros x.
  rewrite map_lookup_filter_Some. cbn [fst]. split; [by intros [? _] | done].
Qed.

Lemma write_frames_lookup (tree : gmap string output_file) (files : list string)
    (path : string) :
  path ∉ files → foldl (fun t f => <[f := Frame]> t) tree files !! path = tree !! path.
Proof.
  revert tree. induction files as [|f files IH]; intros tree Hnot; [done|].
  apply not_elem_of_cons in Hnot as [Hne Hnot]. cbn [foldl].
  rewrite IH by done. by apply lookup_insert_ne.
Qed.

Lemma write_tasks_lookup (tree : gmap string output_file)
    (turns : list (string * (cua_data * list string))) (path : string) :
  (∀ tid d files, (tid, (d, files)) ∈ turns → path ≠ task_file tid ∧ path ∉ files) →
  foldl write_task tree turns !! path = tree !! path.
Proof.
  revert tree. induction turns as [|[tid [d files]] turns IH]; intros tree Hall; [done|].
  cbn [foldl]. rewrite IH by (intros t d' fs Hin; apply (Hall t d' fs); by right).
  destruct (Hall tid d files) as [Hne Hnot]; [by left|].
  unfold write_task. rewrite lookup_insert_ne by done. by apply write_frames_lookup.
Qed.

Lemma whole_output_dir_lookup (coord_adjustments_file : option (gmap string adjustment))
    (tree : gmap string output_file) (path : string) :
  path ≠ coord_path → whole_output_dir coord_adjustments_file tree !! path = tree !! path.
Proof.
  intros Hne. unfold whole_output_dir.
  destruct coord_adjustments_file; [by apply lookup_insert_ne | by apply lookup_delete_ne].
Qed.

Lemma export_task_screenshots (tid : string) d files f :
  run_export_task tid = Some (d, files) → f ∈ files → last_char f = Some "g"%char.
Proof.
  unfold export_task. intros Hrun.
  destruct (load_task_data cv2 DATA_DIR tid) as [data|];
    cbn [mbind option_bind] in Hrun; [|done].
  destruct (DATA_DIR !! tid ≫= λ d0, find_video (td_mp4 d0)) as [v|];
    cbn [mbind option_bind] in Hrun; [|done].
  injection Hrun as _ <-. induction (steps data) as [|st rest IH];
    cbn [fmap list_fmap concat]; [by intros ?%elem_of_nil|].
  intros [Hin|Hin]%elem_of_app; [|by apply IH].
  unfold export_step in Hin. cbn [snd] in Hin.
  destruct (cap_read cv2 _ _); [|by apply elem_of_nil in Hin].
  apply list_elem_of_singleton in Hin as ->. apply last_char_screenshot.
Qed.

Context (OUTPUT_DIR : gmap string output_file).

(** C5 (amended). The export selects exactly the task ids whose mark is
    "pass".  Every per-task file this run writes and every record of
    [all_tasks.json], which is rewritten as a whole, is the record built
    for such a task.  For a task without a "pass" mark (marked "fail",
    unmarked, or never annotated) the run writes no per-task file and
    removes none: the output directory and the archive hold a per-task
    file for it after the run exactly when the directory held one
    before. *)
Theorem export_gating :
  let result :=
    api_export cv2 DATA_DIR tasks annotations_file coord_file OUTPUT_DIR in
  (∀ tid, tid ∈ passed_tasks annotations
          ↔ ∃ ann, (tid, ann) ∈ annotations ∧ ann_mark ann = Some "pass")
  ∧ (∀ file d, (file, d) ∈ er_task_files result →
       ∃ tid ann files, (tid, ann) ∈ annotations ∧ ann_mark ann = Some "pass"
         ∧ file = task_file tid ∧ run_export_task tid = Some (d, files))
  ∧ (∀ d, d ∈ er_all_data result →
       ∃ tid ann files, (tid, ann) ∈ annotations ∧ ann_mark ann = Some "pass"
         ∧ run_export_task tid = Some (d, files))
  ∧ er_output_dir result !! all_tasks_path = Some (AllTasksJson (er_all_data result))
  ∧ er_archive result !! all_tasks_path = Some (AllTasksJson (er_all_data result))
  ∧ (∀ tid, (∀ ann, (tid, ann) ∈ annotations → ann_mark ann ≠ Some "pass") →
       (∀ d, (task_file tid, d) ∉ er_task_files result)
       ∧ er_output_dir result !! task_file tid = OUTPUT_DIR !! task_file tid
       ∧ er_archive result !! task_file tid = OUTPUT_DIR !! task_file tid).
Proof.
  intros result.
  assert (Hfiles : ∀ file d, (file, d) ∈ er_task_files result →
       ∃ tid ann files, (tid, ann) ∈ annotations ∧ ann_mark ann = Some "pass"
         ∧ file = task_file tid ∧ run_export_task tid = Some (d, files)).
  { intros file d Hin. unfold result, api_export in Hin; cbn [er_task_files] in Hin.
    apply list_elem_of_fmap in Hin as ([tid [d' files]] & [= -> ->] & Hin).
    apply elem_of_export_loop in Hin as [Hpass Hrun].
    apply elem_of_passed_tasks in Hpass as (ann & Hann & Hmark).
    by exists tid, ann, files. }
  split; [apply elem_of_passed_tasks|]. split; [exact Hfiles|]. split; [|split; [|split]].
  - intros d Hin. unfold result, api_export in Hin; cbn [er_all_data] in Hin.
    apply list_elem_of_fmap in Hin as ([tid [d' files]] & -> & Hin).
    apply elem_of_export_loop in Hin as [Hpass Hrun].
    apply elem_of_passed_tasks in Hpass as (ann & Hann & Hmark).
    by exists tid, ann, files.
  - unfold result, api_export; cbn [er_output_dir er_all_data].
    rewrite lookup_insert_ne by done. apply lookup_insert_eq.
  - unfold result, api_export; cbn [er_archive er_all_data].
    rewrite make_archive_lookup by done. apply lookup_insert_eq.
  - intros tid Hnot.
    assert (Hkept : ∀ d, (task_file tid, d) ∉ er_task_files result).
    { intros d Hin.
      apply Hfiles in Hin as (tid' & ann & files & Hann & Hmark & Heq & _).
      apply task_file_inj in Heq as <-. by apply (Hnot ann). }
    split; [exact Hkept|].
    destruct (task_file_head tid) as [rest Hhead].
    assert (Htree : foldl write_task (whole_output_dir coord_file OUTPUT_DIR)
                      (export_loop cv2 DATA_DIR tasks annotations
                         (load_coord_adjustments coord_file) (passed_tasks annotations))
                    !! task_file tid = OUTPUT_DIR !! task_file tid).
    { rewrite write_tasks_lookup.
      - apply whole_output_dir_lookup. rewrite Hhead. done.
      - intros t d files Hin. split.
        + intros Heq%task_file_inj. subst t. apply (Hkept d).
          unfold result, api_export; cbn [er_task_files].
          apply list_elem_of_fmap. by exists (tid, (d, files)).
        + intros Hf. apply elem_of_export_loop in Hin as [_ Hrun].
          pose proof (export_task_screenshots t d files _ Hrun Hf) as Hg.
          by rewrite last_char_task_file in Hg. }
    unfold result, api_export; cbn [er_output_dir er_archive]. split.
    + rewrite !lookup_insert_ne by (rewrite Hhead; done). exact Htree.
    + rewrite make_archive_lookup by apply task_file_not_zip.
      rewrite lookup_insert_ne by (rewrite Hhead; done). exact Htree.
Qed.

(** The count of the response is the number of selected tasks; the
    records written can only be fewer. *)
Lemma export_count_bound :
  let result :=
    api_export cv2 DATA_DIR tasks annotations_file coord_file OUTPUT_DIR in
  er_count result = length (passed_tasks annotations)
  ∧ (length (er_all_data result) <= er_count result)%nat
  ∧ length (er_task_files result) = length (er_all_data result).
Proof.
  cbn [api_export er_count er_all_data er_task_files].
  rewrite !length_fmap. split; [done|]. split; [|done].
  unfold export_loop. apply omap_length_le.
Qed.

End export.

(** *** Files of earlier runs *)

Lemma export_gating_witness :
  er_task_files
    (api_export any_video {["1" := complete_dir; "2" := complete_dir]} ∅
       (Some two_verdicts) None ∅)
  = [("task_1/task_1.json", record_of_task_1)]
  ∧ er_output_dir
      (api_export any_video {["1" := complete_dir; "2" := complete_dir]} ∅
         (Some two_verdicts) None ∅) !! task_file "2" = None
  ∧ er_archive
      (api_export any_video {["1" := complete_dir; "2" := complete_dir]} ∅
         (Some two_verdicts) None ∅) !! task_file "2" = None.
Proof.
  split; [by vm_compute|].
  assert (Hfail : ∀ ann, (("2" : string), ann) ∈ load_annotations (Some two_verdicts) →
            ann_mark ann ≠ Some "pass").
  { intros ann Hin Hpass.
    apply elem_of_cons in Hin as [Heq | Hin]; [discriminate Heq|].
    apply elem_of_cons in Hin as [Heq | Hin%elem_of_nil]; [|done].
    injection Heq as ->. discriminate Hpass. }
  destruct (proj2 (proj2 (proj2 (proj2 (proj2
              (export_gating any_video {["1" := complete_dir; "2" := complete_dir]} ∅
                 (Some two_verdicts) None ∅))))) "2" Hfail) as (_ & Hdir & Hzip).
  split; [exact Hdir | exact Hzip].
Defined.

(** C5, as stated, fails across two runs on one output directory.  With
    task 1 marked "pass" the first run writes [task_1/task_1.json];
    with the mark changed to "fail" the second run, on the directory the
    first one left, writes nothing for the task and [all_tasks.json] is
    empty, yet the per-task record of the first run is still in the
    directory and is packed into the archive again. *)
Lemma export_gating_counterexample :
  er_task_files first_export = [("task_1/task_1.json", record_of_task_1)]
  ∧ second_export
    = api_export any_video {["1" := complete_dir]} ∅
        (Some [("1", fail_annotation)]) None (er_output_dir first_export)
  ∧ ann_mark fail_annotation = Some "fail"
  ∧ passed_tasks (load_annotations (Some [("1", fail_annotation)])) = []
  ∧ er_task_files second_export = []
  ∧ er_all_data second_export = []
  ∧ er_output_dir second_export !! "all_tasks.json" = Some (AllTasksJson [])
  ∧ er_output_dir second_export !! "task_1/task_1.json"
    = Some (TaskJson record_of_task_1)
  ∧ er_archive second_export !! "task_1/task_1.json"
    = Some (TaskJson record_of_task_1).
Proof. repeat split; by vm_compute. Qed.

(** C6 fails on the code: with one task marked "pass" whose directory
    is missing, nothing is written and the combined file is empty, yet
    the response counts one exported task. *)
Lemma export_count_overstated :
  let result :=
    api_export no_video ∅ ∅ (Some [("1", pass_annotation)]) None ∅ in
  er_count result = 1
  ∧ er_message result = "Exported 1 passed cases"
  ∧ er_all_data result = []
  ∧ er_task_files result = [].
Proof. vm_compute. repeat split. Qed.

(** The same with the task data present and the video missing. *)
Lemma export_count_overstated_no_video :
  let result :=
    api_export no_video {["1" := dir_without_video]} ∅
      (Some [("1", pass_annotation)]) None ∅ in
  er_count result = 1
  ∧ er_message result = "Exported 1 passed cases"
  ∧ er_all_data result = []
  ∧ er_task_files result = [].
Proof. vm_compute. repeat split. Qed.

(** ** Text lemmas for the synthesizer *)

Section text.

Implicit Types (s a b needle : string) (c : ascii).

Lemma has_char_app c a b : has_char c (a +:+ b) = has_char c a || has_char c b.
Proof.
  induction a as [|x a IH]; simpl; [done|]. by rewrite IH, orb_assoc.
Qed.

Lemma prefix_has_char needle s c :
  String.prefix needle s = true → has_char c needle = true → has_char c s = true.
Proof.
  revert s. induction needle as [|x needle IH]; intros [|y s]; simpl; try done.
  destruct (ascii_dec x y) as [->|]; [|done].
  intros Hp [Hc|Hc]%orb_true_iff; apply orb_true_iff; [by left|].
  right. by apply IH.
Qed.

Lemma contains_has_char needle s c :
  contains needle s = true → has_char c needle = true → has_char c s = true.
Proof.
  intros Hin Hc. induction s as [|y s IH].
  - apply (prefix_has_char needle "" c); [|done].
    simpl in Hin. by rewrite orb_false_r in Hin.
  - cbn [contains] in Hin. apply orb_true_iff in Hin as [Hp|Hin].
    + by apply (prefix_has_char needle (String y s)).
    + cbn [has_char]. apply orb_true_iff. right. by apply IH.
Qed.

(** A needle with a character that [s] lacks does not occur in [s]. *)
Lemma contains_lacking needle s c :
  has_char c needle = true → has_char c s = false → contains needle s = false.
Proof.
  intros Hn Hs. destruct (contains needle s) eqn:E; [|done].
  by rewrite (contains_has_char _ _ _ E Hn) in Hs.
Qed.

Lemma prefix_app needle a b :
  String.prefix needle a = true → String.prefix needle (a +:+ b) = true.
Proof.
  revert a. induction needle as [|x needle IH]; intros a.
  - intros _. by destruct (a +:+ b).
  - destruct a as [|y a]; simpl; [done|].
    destruct (ascii_dec x y); [apply IH | done].
Qed.

Lemma contains_app_l needle a b :
  contains needle a = true → contains needle (a +:+ b) = true.
Proof.
  induction a as [|y a IH].
  - simpl. rewrite orb_false_r. destruct needle; [|done]. intros _.
    by destruct b.
  - cbn [contains String.append].
    intros [Hp|Hin]%orb_true_iff; apply orb_true_iff.
    + left. by apply (prefix_app needle (String y a)).
    + right. by apply IH.
Qed.

Lemma contains_app_r needle a b :
  contains needle b = true → contains needle (a +:+ b) = true.
Proof.
  intros Hin. induction a as [|y a IH]; simpl; [done|].
  apply orb_true_iff. by right.
Qed.

Lemma string_app_cons c a b : String c a +:+ b = String c (a +:+ b).
Proof. reflexivity. Qed.

Lemma string_app_nil_l s : "" +:+ s = s.
Proof. reflexivity. Qed.

Lemma lower_app a b : lower (a +:+ b) = lower a +:+ lower b.
Proof. induction a as [|y a IH]; simpl; [done|]. by rewrite IH. Qed.

(** The characters of a formatted integer are digits and the sign. *)
Lemma uint_chars c d :
  has_char c (NilEmpty.string_of_uint d) = true → is_digit c = true.
Proof.
  induction d; simpl; try done;
    (intros [Hc|Hc]%orb_true_iff; [apply Ascii.eqb_eq in Hc; by subst | by apply IHd]).
Qed.

Lemma nilzero_uint_chars c d :
  has_char c (NilZero.string_of_uint d) = true → is_digit c = true.
Proof.
  destruct d as [|d|d|d|d|d|d|d|d|d|d];
    [|intros H; eapply uint_chars; exact H ..].
  simpl. rewrite orb_false_r. intros Hc. apply Ascii.eqb_eq in Hc. by subst.
Qed.

Lemma format_int_chars c n :
  has_char c (format_int n) = true → c = "-"%char ∨ is_digit c = true.
Proof.
  unfold format_int. destruct (Z.to_int n) as [d|d]; unfold NilZero.string_of_int.
  - intros H. right. by apply nilzero_uint_chars in H.
  - cbn [has_char]. intros [Hc|Hc]%orb_true_iff.
    + left. by apply Ascii.eqb_eq in Hc.
    + right. by apply nilzero_uint_chars in Hc.
Qed.

Lemma format_int_lacks c n :
  Ascii.eqb c "-" = false → is_digit c = false → has_char c (format_int n) = false.
Proof.
  intros Hm Hd. destruct (has_char c (format_int n)) eqn:E; [|done].
  apply format_int_chars in E as [->|E]; [done | congruence].
Qed.

Lemma all_digits_lacks c g :
  is_digit c = false → all_digits g = true → has_char c g = false.
Proof.
  intros Hc. induction g as [|y g IH]; simpl; [done|].
  intros [Hy Hg]%andb_true_iff. rewrite (IH Hg), orb_false_r.
  destruct (Ascii.eqb c y) eqn:E; [|done]. apply Ascii.eqb_eq in E. congruence.
Qed.

End text.

(** ** Coordinate substitution *)

Section substitution.

Implicit Types (a b x y : Z) (g : string).

(** [needle] does not occur in a code built from literals, formatted
    integers and digit groups, because all of them lack [c]. *)
Ltac lacking c :=
  match goal with
  | |- contains ?needle ?s = false =>
      apply (contains_lacking needle s c); [reflexivity|];
      rewrite ?has_char_app;
      rewrite ?format_int_lacks by reflexivity;
      simpl;
      rewrite ?(all_digits_lacks c) by (reflexivity || assumption);
      reflexivity
  end.

Lemma adjust_double_click a b x y :
  adjust_code (double_click_code a b) x y = double_click_code x y.
Proof.
  unfold adjust_code.
  assert (contains "doubleClick" (double_click_code a b) = true) as ->; [|done].
  by apply contains_app_l.
Qed.

Lemma adjust_right_click a b x y :
  adjust_code (right_click_code a b) x y = right_click_code x y.
Proof.
  unfold adjust_code.
  assert (contains "doubleClick" (right_click_code a b) = false) as ->
    by (unfold right_click_code; lacking "b"%char).
  assert (contains "rightClick" (right_click_code a b) = true) as ->; [|done].
  by apply contains_app_l.
Qed.

Lemma adjust_triple_click a b x y :
  adjust_code (triple_click_code a b) x y = triple_click_code x y.
Proof.
  unfold adjust_code.
  assert (contains "doubleClick" (triple_click_code a b) = false) as ->
    by (unfold triple_click_code; lacking "b"%char).
  assert (contains "rightClick" (triple_click_code a b) = false) as ->
    by (unfold triple_click_code; lacking "h"%char).
  assert (contains "clicks=3" (triple_click_code a b) = true) as ->; [|done].
  unfold triple_click_code. by do 4 apply contains_app_r.
Qed.

Lemma adjust_click a b x y :
  adjust_code (click_code a b) x y = click_code x y.
Proof.
  unfold adjust_code.
  assert (contains "doubleClick" (click_code a b) = false) as ->
    by (unfold click_code; lacking "b"%char).
  assert (contains "rightClick" (click_code a b) = false) as ->
    by (unfold click_code; lacking "h"%char).
  assert (contains "clicks=3" (click_code a b) = false) as ->
    by (unfold click_code; lacking "="%char).
  assert (contains "click" (lower (click_code a b)) = true) as ->.
  { unfold click_code. rewrite lower_app. by apply contains_app_l. }
  assert (contains "pyautogui.click" (click_code a b) = true) as ->; [|done].
  by apply contains_app_l.
Qed.

(** The fallback form of a drag passes every test of the chain. *)
Lemma adjust_drag_fallback a b x y :
  adjust_code (drag_code a b) x y = drag_code a b.
Proof.
  unfold adjust_code.
  assert (contains "doubleClick" (drag_code a b) = false) as ->
    by (unfold drag_code; lacking "b"%char).
  assert (contains "rightClick" (drag_code a b) = false) as ->
    by (unfold drag_code; lacking "h"%char).
  assert (contains "clicks=3" (drag_code a b) = false) as ->
    by (unfold drag_code; lacking "="%char).
  assert (contains "pyautogui.click" (drag_code a b) = false) as ->
    by (unfold drag_code; lacking "c"%char).
  assert (contains "moveTo" (drag_code a b) = false) as ->
    by (unfold drag_code; lacking "m"%char).
  by rewrite andb_false_r.
Qed.

(** *** The drag pair *)

Lemma span_digits_app g r :
  all_digits g = true → starts_without_digit r →
  span is_digit (g +:+ r) = (g, r).
Proof.
  intros Hg Hr. induction g as [|c g IH]; simpl in *.
  - destruct r as [|c r]; simpl in *; [done|]. by rewrite Hr.
  - apply andb_true_iff in Hg as [-> Hg]. by rewrite (IH Hg).
Qed.

Lemma digits1_app g r :
  g ≠ "" → all_digits g = true → starts_without_digit r →
  digits1 (g +:+ r) = Some (g, r).
Proof.
  intros Hne Hg Hr. unfold digits1. rewrite span_digits_app by done.
  by destruct g.
Qed.

Lemma span_fst_all_digits s : all_digits (fst (span is_digit s)) = true.
Proof.
  induction s as [|c s IH]; simpl; [done|].
  destruct (is_digit c) eqn:E; [|done].
  destruct (span is_digit s) as [d r]; simpl in *. by rewrite E, IH.
Qed.

Lemma digits1_some s g r :
  digits1 s = Some (g, r) → g ≠ "" ∧ all_digits g = true.
Proof.
  unfold digits1. pose proof (span_fst_all_digits s) as Hall.
  destruct (span is_digit s) as [d r']; simpl in Hall.
  destruct d; [done|]. intros [= <- <-]. done.
Qed.

Lemma digit_not_space c : is_digit c = true → is_space c = false.
Proof.
  unfold is_digit, is_space. intros [H1 H2]%andb_true_iff.
  apply Nat.leb_le in H1. apply orb_false_iff. split; apply andb_false_iff.
  - right. apply Nat.leb_gt. lia.
  - right. apply Nat.leb_gt. lia.
Qed.

Lemma spaces_digits g r :
  g ≠ "" → all_digits g = true → spaces (" " +:+ g +:+ r) = g +:+ r.
Proof.
  intros Hne Hg. destruct g as [|c g]; [done|]. simpl in Hg.
  apply andb_true_iff in Hg as [Hc _]. unfold spaces. simpl.
  by rewrite (digit_not_space c Hc).
Qed.

Lemma re_search_hit {A} (m : string → option A) s r :
  m s = Some r → re_search m s = Some r.
Proof. intros H. destruct s; simpl; by rewrite H. Qed.

Lemma re_search_miss {A} (m : string → option A) c s :
  m (String c s) = None → re_search m (String c s) = re_search m s.
Proof. intros H. simpl. by rewrite H. Qed.

Lemma re_search_some {A} (m : string → option A) s r :
  re_search m s = Some r → ∃ s', m s' = Some r.
Proof.
  induction s as [|c s IH]; simpl.
  - destruct (m "") eqn:E; [|done]. intros [= <-]. eauto.
  - destruct (m (String c s)) eqn:E; [intros [= <-]; eauto | done].
Qed.

Lemma drag_to_pattern_miss c s :
  Ascii.eqb "d" c = false → drag_to_pattern (String c s) = None.
Proof. intros H. unfold drag_to_pattern. cbn [lit]. by rewrite H. Qed.


Lemma lit_app l s : lit l (l +:+ s) = Some s.
Proof.
  induction l as [|c l IH]; [done|].
  rewrite string_app_cons. cbn [lit]. by rewrite Ascii.eqb_refl.
Qed.

Lemma drag_to_pattern_hit g3 g4 :
  g3 ≠ "" → all_digits g3 = true → g4 ≠ "" → all_digits g4 = true →
  drag_to_pattern ("dragTo(" +:+ g3 +:+ ", " +:+ g4 +:+ ")") = Some (g3, g4).
Proof.
  intros H3 D3 H4 D4. unfold drag_to_pattern.
  rewrite lit_app. cbn [mbind option_bind].
  rewrite (digits1_app g3 (", " +:+ g4 +:+ ")")) by done.
  cbn [mbind option_bind].
  change (", " +:+ g4 +:+ ")") with ("," +:+ " " +:+ g4 +:+ ")").
  rewrite lit_app. cbn [mbind option_bind].
  rewrite spaces_digits by done.
  rewrite (digits1_app g4 ")") by done.
  reflexivity.
Qed.




End substitution.

Section adjusted_steps.

Context (cv2 : frame_source) (coord_adjustments : gmap string adjustment).
Context (tid video : string) (fps : Q) (total_frames : Z).
Context (vis_events : list event) (video_start_ts : Q) (i : nat) (ce : event).

Local Abbreviation st := (build_step vis_events video_start_ts i ce).
Local Abbreviation served := (code (adjust_step coord_adjustments tid st)).
Local Abbreviation exported :=
  (te_code (fst (export_step cv2 coord_adjustments tid video fps total_frames st))).

(** Both places that apply an adjustment run [adjust_code] on the code
    the synthesizer gave the step. *)
Lemma adjusted_code_sites adj :
  coord_adjustments !! adj_key tid (Z.of_nat i) = Some adj →
  served = adjust_code (code st) (adj_x adj) (adj_y adj)
  ∧ exported = adjust_code (code st) (adj_x adj) (adj_y adj).
Proof.
  intros Hadj. unfold adjust_step, export_step.
  cbn [index build_step]. rewrite Hadj. done.
Qed.

Lemma adjust_click_variants ev d x y :
  adjust_code (build_pyautogui_code "click" ev d) x y
  = build_pyautogui_code "click" (with_coordinate ev x y) d.
Proof.
  unfold build_pyautogui_code. cbn [String.eqb Ascii.eqb Bool.eqb].
  cbn [get_x get_y with_coordinate ev_coordinate coord_x coord_y default].
  destruct (contains "double" (lower d)); [apply adjust_double_click|].
  destruct (contains "right" (lower d)); [apply adjust_right_click|].
  destruct (contains "triple" (lower d)); [apply adjust_triple_click|].
  apply adjust_click.
Qed.

(** C10. A drag step whose description does not match the drag pattern
    gets the fallback form [pyautogui.drag(x, y)]; an adjustment of the
    step changes its coordinate, yet the code served and the code
    exported are that same string, the adjusted coordinate appearing
    nowhere in it. *)
Theorem drag_fallback_not_substituted adj :
  action st = "drag" →
  re_search drag_pattern (description st) = None →
  coord_adjustments !! adj_key tid (Z.of_nat i) = Some adj →
  code st = drag_code (coordinate_x st) (coordinate_y st)
  ∧ served = code st
  ∧ exported = code st
  ∧ coordinate_x (adjust_step coord_adjustments tid st) = adj_x adj
  ∧ coordinate_y (adjust_step coord_adjustments tid st) = adj_y adj.
Proof.
  intros Hact Hre Hadj. destruct (adjusted_code_sites adj Hadj) as [Hs He].
  assert (Hcode : code st = drag_code (coordinate_x st) (coordinate_y st)).
  { cbn [code action description coordinate_x coordinate_y build_step] in *.
    rewrite Hact. unfold build_pyautogui_code.
    cbn [String.eqb Ascii.eqb Bool.eqb]. by rewrite Hre. }
  split; [done|]. rewrite Hs, He, Hcode, adjust_drag_fallback.
  repeat split; unfold adjust_step; cbn [index build_step]; by rewrite Hadj.
Qed.

End adjusted_steps.

(** The example of the specification: [doubleClick(100, 200)] adjusted
    to (150, 250). *)
Example adjust_double_click_100_200 :
  adjust_code "pyautogui.doubleClick(100, 200)" 150 250
  = "pyautogui.doubleClick(150, 250)".
Proof. reflexivity. Qed.


Lemma drag_fallback_not_substituted_witness :
  has_coordinate (build_step [] 0 0 drag_fallback_event) = true
  ∧ code (build_step [] 0 0 drag_fallback_event) = "pyautogui.drag(100, 200)"
  ∧ code (adjust_step adjusted_to_150_250 "7" (build_step [] 0 0 drag_fallback_event))
    = "pyautogui.drag(100, 200)"
  ∧ coordinate_x
      (adjust_step adjusted_to_150_250 "7" (build_step [] 0 0 drag_fallback_event))
    = 150%Z.
Proof.
  pose proof (drag_fallback_not_substituted no_video adjusted_to_150_250 "7"
                "rec.mp4" 30 100 [] 0 0 drag_fallback_event _
                eq_refl eq_refl eq_refl) as (Hcode & Hserved & _ & Hx & _).
  split; [reflexivity|]. split; [exact Hcode|]. split; [|exact Hx].
  exact (eq_trans Hserved Hcode).
Defined.

Lemma annotate_full_replace_witness :
  dict_get "2" (load_annotations (api_annotate (Some two_verdicts) unclear_request))
  = Some {| ann_mark := None; ann_pass_reason := ""; ann_scores := ∅ |}
  ∧ dict_get "1" (load_annotations (api_annotate (Some two_verdicts) unclear_request))
    = Some pass_annotation.
Proof.
  destruct (annotate_full_replace (Some two_verdicts) unclear_request) as [Hset Hother].
  split; [exact Hset|].
  exact (eq_trans (Hother "1" ltac:(discriminate)) eq_refl).
Defined.


(** * Further properties of the code *)

Import Frames Registry Invariants.

(** ** Formatted integers *)

Section formatted_integers.

Lemma int_of_digits_acc_pos d acc :
  int_of_digits_acc (Zpos acc) (NilEmpty.string_of_uint d)
  = Zpos (Pos.of_uint_acc d acc).
Proof.
  revert acc. induction d; intros acc; cbn [NilEmpty.string_of_uint
    int_of_digits_acc Pos.of_uint_acc]; [done|..];
    rewrite <- IHd; f_equal;
    match goal with
    | |- context [digit_val ?c] =>
        let v := eval vm_compute in (digit_val c) in change (digit_val c) with v
    end; lia.
Qed.

Lemma int_of_digits_uint d :
  int_of_digits (NilEmpty.string_of_uint d) = Z.of_N (Pos.of_uint d).
Proof.
  unfold int_of_digits.
  induction d; cbn [NilEmpty.string_of_uint int_of_digits_acc Pos.of_uint];
    [done | exact IHd | ..];
    cbn [Z.of_N]; rewrite <- int_of_digits_acc_pos; reflexivity.
Qed.

Lemma nilzero_of_to_uint p :
  NilZero.string_of_uint (Pos.to_uint p) = NilEmpty.string_of_uint (Pos.to_uint p).
Proof.
  pose proof (DecimalPos.Unsigned.to_uint_nonnil p) as Hnil.
  by destruct (Pos.to_uint p).
Qed.

Lemma all_digits_uint d : all_digits (NilEmpty.string_of_uint d) = true.
Proof. induction d; simpl; done. Qed.

Lemma uint_string_nonempty d : d ≠ Decimal.Nil → NilEmpty.string_of_uint d ≠ "".
Proof. by destruct d. Qed.

(** [int(f"{n}") = n], and [f"{n}"] is a non-empty run of digits, for
    [n] that is not negative. *)
Lemma format_int_digits n :
  (0 <= n)%Z →
  format_int n ≠ "" ∧ all_digits (format_int n) = true
  ∧ int_of_digits (format_int n) = n.
Proof.
  intros Hn. unfold format_int. destruct n as [|p|p]; [done| |lia].
  cbn [Z.to_int NilZero.string_of_int]. rewrite nilzero_of_to_uint.
  split; [apply uint_string_nonempty, DecimalPos.Unsigned.to_uint_nonnil|].
  split; [apply all_digits_uint|].
  by rewrite int_of_digits_uint, DecimalPos.Unsigned.of_to.
Qed.

Lemma to_int_proper n : Z.to_int n ≠ Decimal.Pos Decimal.Nil
                        ∧ Z.to_int n ≠ Decimal.Neg Decimal.Nil.
Proof.
  destruct n as [|p|p]; simpl; split; try done; intros [= H];
    by apply (DecimalPos.Unsigned.to_uint_nonnil p).
Qed.

Lemma format_int_inj a b : format_int a = format_int b → a = b.
Proof.
  unfold format_int. intros H.
  destruct (to_int_proper a) as [Ha1 Ha2], (to_int_proper b) as [Hb1 Hb2].
  assert (Heq : Some (Z.to_int a) = Some (Z.to_int b)).
  { rewrite <- (NilZero.isi (Z.to_int a)), <- (NilZero.isi (Z.to_int b)) by done.
    by rewrite H. }
  injection Heq as Heq. apply (f_equal Z.of_int) in Heq.
  by rewrite !DecimalZ.of_to in Heq.
Qed.

(** Two strings that agree after appending an underscore and a part
    without underscore agree part by part. *)
Lemma split_at_last (u : ascii) (a b f g : string) :
  has_char u f = false → has_char u g = false →
  a +:+ String u f = b +:+ String u g → a = b ∧ f = g.
Proof.
  intros Hf Hg. revert b. induction a as [|c a IH]; intros [|c' b];
    rewrite ?string_app_cons, ?string_app_nil_l.
  - by intros [= ->].
  - intros [= <- ->]. rewrite has_char_app in Hf. cbn [has_char] in Hf.
    rewrite Ascii.eqb_refl, orb_true_r in Hf. done.
  - intros [= -> <-]. rewrite has_char_app in Hg. cbn [has_char] in Hg.
    rewrite Ascii.eqb_refl, orb_true_r in Hg. done.
  - intros [= -> H]. destruct (IH _ H) as [-> ->]. done.
Qed.

Lemma adj_key_inj tid1 i1 tid2 i2 :
  adj_key tid1 i1 = adj_key tid2 i2 → tid1 = tid2 ∧ i1 = i2.
Proof.
  unfold adj_key. intros H.
  apply (split_at_last "_"%char) in H as [-> H];
    [|by apply format_int_lacks ..].
  split; [done|]. by apply format_int_inj.
Qed.

End formatted_integers.

(** ** Normalizer: the step sequence *)

Section step_sequence.

Context (cv2 : frame_source) (DATA_DIR : gmap string task_dir) (tid : string).

Lemma load_task_data_inv data :
  load_task_data cv2 DATA_DIR tid = Some data →
  ∃ d complete_events,
    DATA_DIR !! tid = Some d ∧ td_complete d = Some complete_events
    ∧ steps data
      = imap (build_step (default [] (td_vis d))
                (match td_metadata d with
                 | Some m => default 0%Q (video_start_timestamp m)
                 | None => 0%Q
                 end)) complete_events
    ∧ video_file data = path_name <$> find_video (td_mp4 d).
Proof.
  unfold load_task_data. destruct (DATA_DIR !! tid) as [d|]; [|done].
  destruct (find_video (td_mp4 d)) eqn:Ev;
    destruct (td_complete d) as [evs|] eqn:Ec;
    try done; intros [= <-]; exists d, evs; rewrite Ev; done.
Qed.

(** X1. When [load_task_data] answers, its steps are the complete
    events in order: as many steps as events, the step at position [i]
    carries index [i] and the action, justification and coordinate of
    the [i]-th complete event, with absent keys read as the empty string
    and 0. *)
Theorem steps_follow_complete_log data :
  load_task_data cv2 DATA_DIR tid = Some data →
  ∃ d complete_events,
    DATA_DIR !! tid = Some d ∧ td_complete d = Some complete_events
    ∧ length (steps data) = length complete_events
    ∧ ∀ i st, steps data !! i = Some st →
        ∃ ce, complete_events !! i = Some ce
          ∧ index st = i
          ∧ action st = default "" (ev_action ce)
          ∧ justification st = default "" (ev_justification ce)
          ∧ coordinate_x st = get_x ce ∧ coordinate_y st = get_y ce.
Proof.
  intros (d & evs & Hd & Hc & Hsteps & _)%load_task_data_inv.
  exists d, evs. split; [done|]. split; [done|]. rewrite Hsteps.
  split; [by rewrite length_imap|].
  intros i st Hi. rewrite list_lookup_imap in Hi.
  destruct (evs !! i) as [ce|]; [|done]. injection Hi as <-.
  exists ce. done.
Qed.

End step_sequence.

Lemma steps_follow_complete_log_witness :
  ∃ d complete_events,
    one_task !! "7" = Some d ∧ td_complete d = Some complete_events
    ∧ length (steps (default
                (Build_task_data "" None 0 0 0 [])
                (load_task_data any_video one_task "7")))
      = length complete_events.
Proof.
  destruct (steps_follow_complete_log any_video one_task "7"
              (default (Build_task_data "" None 0 0 0 [])
                 (load_task_data any_video one_task "7")) eq_refl)
    as (d & evs & Hd & Hc & Hlen & _).
  exists d, evs. done.
Defined.

(** ** Coordinate adjustment store: further properties *)

Section store.

Implicit Types (coord_file : option (gmap string adjustment)).
Implicit Types (data : update_request).

Lemma update_other_lookup coord_file data (tid : string) (i : Z) :
  (tid, i) ≠ (ur_task_id data, ur_step_index data) →
  load_coord_adjustments (api_update_coordinate coord_file data) !! adj_key tid i
  = load_coord_adjustments coord_file !! adj_key tid i.
Proof.
  intros Hne. unfold api_update_coordinate; simpl.
  apply lookup_insert_ne. intros [H1 H2]%adj_key_inj. apply Hne. congruence.
Qed.

(** X2. A call for one task and step leaves the entry of every other
    task and step as it was: the keys of different (task, step) pairs
    never coincide. *)
Theorem update_leaves_other_steps coord_file data (tid : string) (i : Z) :
  (tid, i) ≠ (ur_task_id data, ur_step_index data) →
  load_coord_adjustments (api_update_coordinate coord_file data) !! adj_key tid i
  = load_coord_adjustments coord_file !! adj_key tid i.
Proof.
  intros Hne. unfold api_update_coordinate.
  cbn [load_coord_adjustments default from_option id].
  apply lookup_insert_ne. intros Hkey. apply Hne.
  apply adj_key_inj in Hkey as [Htid Hidx]. by rewrite Htid, Hidx.
Qed.

(** X3. Repeating a call changes nothing: the file after the second
    call is the file after the first. *)
Theorem update_idempotent coord_file data :
  api_update_coordinate (api_update_coordinate coord_file data) data
  = api_update_coordinate coord_file data.
Proof.
  pose proof (stored_original_same coord_file data) as Horig.
  unfold stored_original in Horig.
  unfold api_update_coordinate at 1. fold (request_key data).
  rewrite Horig. unfold api_update_coordinate, request_key.
  cbn [load_coord_adjustments default from_option id]. f_equal.
  rewrite insert_insert_eq. reflexivity.
Qed.

Lemma update_well_keyed coord_file data :
  well_keyed (load_coord_adjustments coord_file) →
  well_keyed (load_coord_adjustments (api_update_coordinate coord_file data)).
Proof.
  intros Hwk key adj. unfold api_update_coordinate; simpl.
  destruct (decide (adj_key (ur_task_id data) (ur_step_index data) = key)) as [<-|Hne].
  - rewrite lookup_insert_eq. intros [= <-]; simpl. split; [done | eauto].
  - rewrite lookup_insert_ne by done. apply Hwk.
Qed.

(** X4. Every file the endpoint produces is well keyed: after any
    sequence of calls on a well keyed file (an absent one for instance)
    each entry sits under the key formed from its own task id and step
    index and carries an original. *)
Theorem updates_keep_well_keyed coord_file (calls : list update_request) :
  well_keyed (load_coord_adjustments coord_file) →
  well_keyed (load_coord_adjustments (run_updates coord_file calls)).
Proof.
  revert coord_file. induction calls as [|data calls IH]; intros coord_file Hwk;
    [done|].
  apply IH. by apply update_well_keyed.
Qed.

End store.

Lemma update_leaves_other_steps_witness :
  load_coord_adjustments
    (api_update_coordinate (Some adjusted_to_150_250) adjust_other_task)
  !! adj_key "7" 0
  = load_coord_adjustments (Some adjusted_to_150_250) !! adj_key "7" 0.
Proof.
  apply (update_leaves_other_steps (Some adjusted_to_150_250) adjust_other_task "7" 0).
  discriminate.
Defined.

Lemma updates_keep_well_keyed_witness :
  well_keyed
    (load_coord_adjustments (run_updates None [adjust_step_0; adjust_other_task])).
Proof.
  apply (updates_keep_well_keyed None [adjust_step_0; adjust_other_task]).
  intros key adj H. cbn in H. by rewrite lookup_empty in H.
Defined.

(** ** Serving a task *)

Section serving.

Context (cv2 : frame_source) (DATA_DIR : gmap string task_dir).

Lemma load_task_data_index tid data i st :
  load_task_data cv2 DATA_DIR tid = Some data →
  steps data !! i = Some st → index st = i.
Proof.
  intros (d & evs & _ & _ & Hsteps & _)%load_task_data_inv Hi.
  rewrite Hsteps, list_lookup_imap in Hi.
  destruct (evs !! i); [|done]. by injection Hi as <-.
Qed.

Lemma api_task_steps coord_file tid data :
  load_task_data cv2 DATA_DIR tid = Some data →
  ∃ served,
    api_task cv2 DATA_DIR coord_file tid = Ok served
    ∧ task_id served = task_id data ∧ video_file served = video_file data
    ∧ video_start_ts served = video_start_ts data
    ∧ video_width served = video_width data
    ∧ video_height served = video_height data
    ∧ steps served
      = adjust_step (load_coord_adjustments coord_file) tid <$> steps data.
Proof.
  intros Hload. unfold api_task. rewrite Hload.
  destruct coord_file as [store|]; eexists; (split; [reflexivity|]);
    repeat split; try reflexivity.
  cbn [load_coord_adjustments default].
  rewrite <- (list_fmap_id (steps data)) at 1. apply list_fmap_ext.
  intros j st _. unfold adjust_step. by rewrite lookup_empty.
Qed.

(** X5. [api_task] serves as many steps as [load_task_data] produced.
    An adjustment touches the coordinate and the code of its step only:
    index, action, description, justification, [has_coordinate] and the
    video time are served as loaded, a step without an entry in the
    overlay is served unchanged, and a step with one gets the entry's
    [(x, y)] as coordinate. *)
Theorem api_task_frame coord_file tid data :
  load_task_data cv2 DATA_DIR tid = Some data →
  ∃ served,
    api_task cv2 DATA_DIR coord_file tid = Ok served
    ∧ length (steps served) = length (steps data)
    ∧ ∀ i st, steps data !! i = Some st →
        ∃ st', steps served !! i = Some st'
          ∧ index st' = i ∧ action st' = action st
          ∧ description st' = description st
          ∧ justification st' = justification st
          ∧ has_coordinate st' = has_coordinate st
          ∧ (video_time st' == video_time st)%Q
          ∧ (load_coord_adjustments coord_file !! adj_key tid (Z.of_nat i) = None →
             st' = st)
          ∧ (∀ adj, load_coord_adjustments coord_file !! adj_key tid (Z.of_nat i)
                    = Some adj →
               coordinate_x st' = adj_x adj ∧ coordinate_y st' = adj_y adj
               ∧ code st' = adjust_code (code st) (adj_x adj) (adj_y adj)).
Proof.
  intros Hload.
  destruct (api_task_steps coord_file tid data Hload)
    as (served & Hserved & _ & _ & _ & _ & _ & Hsteps).
  exists served. split; [done|]. rewrite Hsteps.
  split; [by rewrite length_fmap|].
  intros i st Hi. rewrite list_lookup_fmap, Hi. cbn [fmap option_fmap option_map].
  eexists. split; [reflexivity|].
  pose proof (load_task_data_index tid data i st Hload Hi) as Hidx.
  unfold adjust_step. rewrite Hidx.
  destruct (load_coord_adjustments coord_file !! adj_key tid (Z.of_nat i)) as [adj|];
    cbn [index action description justification has_coordinate video_time
         coordinate_x coordinate_y code];
    do 5 (split; [done|]); (split; [reflexivity|]); (split; [done|]).
  - intros adj' [= <-]. done.
  - intros adj' [=].
Qed.

(** X6. After [api_update_coordinate] moved step [i] of a task to
    [(x, y)], [api_task] serves that step with coordinate [(x, y)] and
    with its synthesized code put through the substitution; every other
    step of the task is served as it was before the call. *)
Theorem update_then_serve coord_file (request : update_request) (i : nat) data st :
  load_task_data cv2 DATA_DIR (ur_task_id request) = Some data →
  ur_step_index request = Z.of_nat i →
  steps data !! i = Some st →
  ∃ served st',
    api_task cv2 DATA_DIR (api_update_coordinate coord_file request)
      (ur_task_id request) = Ok served
    ∧ steps served !! i = Some st'
    ∧ coordinate_x st' = ur_x request ∧ coordinate_y st' = ur_y request
    ∧ code st' = adjust_code (code st) (ur_x request) (ur_y request)
    ∧ ∀ before j, j ≠ i →
        api_task cv2 DATA_DIR coord_file (ur_task_id request) = Ok before →
        steps served !! j = steps before !! j.
Proof.
  intros Hload Hidx Hi. set (tid := ur_task_id request) in *.
  set (after := api_update_coordinate coord_file request).
  destruct (api_task_steps after tid data Hload)
    as (served & Hserved & _ & _ & _ & _ & _ & Hsteps).
  pose proof (load_task_data_index tid data i st Hload Hi) as Hidxi.
  assert (Hkey : load_coord_adjustments after !! adj_key tid (Z.of_nat i)
                 = Some {| adj_task_id := tid; adj_step_index := ur_step_index request;
                           adj_x := ur_x request; adj_y := ur_y request;
                           adj_original :=
                             Some (default (supplied_original request)
                                     (stored_original coord_file (request_key request))) |}).
  { unfold after, api_update_coordinate. cbn [load_coord_adjustments default from_option id].
    fold tid. rewrite Hidx. rewrite lookup_insert_eq. rewrite <- Hidx. reflexivity. }
  exists served, (adjust_step (load_coord_adjustments after) tid st).
  split; [done|]. split; [by rewrite Hsteps, list_lookup_fmap, Hi|].
  unfold adjust_step at 1 2 3. rewrite Hidxi, Hkey.
  cbn [coordinate_x coordinate_y code adj_x adj_y]. do 3 (split; [done|]).
  intros before j Hne Hbefore.
  destruct (api_task_steps coord_file tid data Hload)
    as (before2 & Hbefore2 & _ & _ & _ & _ & _ & Hsteps0).
  rewrite Hbefore in Hbefore2. injection Hbefore2 as <-.
  rewrite Hsteps, Hsteps0, !list_lookup_fmap.
  destruct (steps data !! j) as [stj|] eqn:Hj; [|done].
  cbn [fmap option_fmap option_map]. f_equal.
  pose proof (load_task_data_index tid data j stj Hload Hj) as Hidxj.
  unfold adjust_step. rewrite Hidxj. unfold after.
  rewrite (update_other_lookup coord_file request tid (Z.of_nat j)); [done|].
  intros [= H]. apply Hne. lia.
Qed.

End serving.

Lemma api_task_frame_witness :
  ∃ served,
    api_task any_video one_task (Some adjusted_to_150_250) "7" = Ok served
    ∧ length (steps served) = 1.
Proof.
  destruct (api_task_frame any_video one_task (Some adjusted_to_150_250) "7"
              (default (Build_task_data "" None 0 0 0 [])
                 (load_task_data any_video one_task "7")) eq_refl)
    as (served & Hserved & Hlen & _).
  exists served. split; [exact Hserved | exact Hlen].
Defined.

Lemma update_then_serve_witness :
  ∃ served st',
    api_task any_video one_task (api_update_coordinate None adjust_step_0) "7"
    = Ok served
    ∧ steps served !! 0 = Some st'
    ∧ coordinate_x st' = 150%Z ∧ coordinate_y st' = 250%Z
    ∧ code st' = "pyautogui.doubleClick(150, 250)".
Proof.
  destruct (update_then_serve any_video one_task None adjust_step_0 0
              (default (Build_task_data "" None 0 0 0 [])
                 (load_task_data any_video one_task "7"))
              (build_step [] 1 0 double_click_event) eq_refl eq_refl eq_refl)
    as (served & st' & Hserved & Hst & Hx & Hy & Hcode & _).
  exists served, st'. repeat split; assumption.
Defined.

(** ** Annotation store: further properties *)

Section annotations.

Lemma keys_dict_set_in {V} (k : string) (v : V) (d : dict V) :
  k ∈ keys d → keys (dict_set k v d) = keys d.
Proof.
  unfold keys. induction d as [|[k' v'] d IH]; cbn [dict_set fmap list_fmap fst].
  - by intros ?%elem_of_nil.
  - destruct (String.eqb k' k) eqn:E; [done|]. cbn [fmap list_fmap fst].
    intros [->|Hin]%elem_of_cons.
    + by rewrite String.eqb_refl in E.
    + f_equal. by apply IH.
Qed.

Lemma keys_dict_set_new {V} (k : string) (v : V) (d : dict V) :
  k ∉ keys d → keys (dict_set k v d) = (keys d ++ [k])%list.
Proof.
  unfold keys. induction d as [|[k' v'] d IH]; cbn [dict_set fmap list_fmap fst];
    [done|].
  intros Hnot. apply not_elem_of_cons in Hnot as [Hne Hnot].
  destruct (String.eqb k' k) eqn:E.
  - apply String.eqb_eq in E. congruence.
  - cbn [fmap list_fmap fst]. simpl. f_equal. by apply IH.
Qed.

(** X7. [api_annotate] keeps the iteration order of the store, which is
    the order of the export: a task annotated before keeps its place,
    a new task goes last, and no task id comes to appear twice. *)
Theorem annotate_keeps_order (annotations_file : option (dict annotation))
    (data : annotate_request) :
  let before := load_annotations annotations_file in
  let after := load_annotations (api_annotate annotations_file data) in
  (ar_task_id data ∈ keys before → keys after = keys before)
  ∧ (ar_task_id data ∉ keys before →
     keys after = (keys before ++ [ar_task_id data])%list)
  ∧ (NoDup (keys before) → NoDup (keys after)).
Proof.
  intros before after. unfold after, api_annotate.
  cbn [load_annotations default from_option id]. fold before.
  split; [apply keys_dict_set_in|]. split; [apply keys_dict_set_new|].
  intros Hnd. destruct (decide (ar_task_id data ∈ keys before)) as [Hin|Hnot].
  - by rewrite keys_dict_set_in.
  - rewrite keys_dict_set_new by done. apply NoDup_app. split; [done|].
    split; [|apply NoDup_singleton].
    intros x Hx ->%list_elem_of_singleton. done.
Qed.

Lemma dict_set_twice {V} (k : string) (v1 v2 : V) (d : dict V) :
  dict_set k v2 (dict_set k v1 d) = dict_set k v2 d.
Proof.
  induction d as [|[k' v'] d IH]; cbn [dict_set].
  - by rewrite String.eqb_refl.
  - destruct (String.eqb k' k) eqn:E; cbn [dict_set]; rewrite E; [done|].
    by rewrite IH.
Qed.

(** X8. Of two annotations of the same task only the second one
    counts: the store is the one the second call alone would leave. *)
Theorem annotate_last_wins (annotations_file : option (dict annotation))
    (first second : annotate_request) :
  ar_task_id first = ar_task_id second →
  api_annotate (api_annotate annotations_file first) second
  = api_annotate annotations_file second.
Proof.
  intros Hsame. unfold api_annotate.
  cbn [load_annotations default from_option id]. rewrite Hsame.
  by rewrite dict_set_twice.
Qed.

Lemma passed_tasks_keys (d : dict annotation) (tid : string) :
  tid ∈ passed_tasks d → tid ∈ keys d.
Proof.
  intros (ann & Hin & _)%elem_of_passed_tasks. unfold keys.
  apply list_elem_of_fmap. by exists (tid, ann).
Qed.

Lemma passed_tasks_dict_set (k : string) v (d : dict annotation) (tid : string) :
  NoDup (keys d) →
  tid ∈ passed_tasks (dict_set k v d)
  ↔ (tid = k ∧ is_pass v = true) ∨ (tid ≠ k ∧ tid ∈ passed_tasks d).
Proof.
  unfold keys. induction d as [|[k' v'] d IH]; cbn [dict_set passed_tasks fmap list_fmap fst].
  - intros _. destruct (is_pass v) eqn:E.
    + rewrite list_elem_of_singleton. split; [by left|].
      intros [[-> _]|[_ ?%elem_of_nil]]; done.
    + split; [by intros ?%elem_of_nil|].
      intros [[_ ?]|[_ ?%elem_of_nil]]; done.
  - intros [Hk' Hnd]%NoDup_cons. destruct (String.eqb k' k) eqn:E.
    + apply String.eqb_eq in E. subst k'. cbn [passed_tasks].
      assert (Hrest : tid ∈ passed_tasks d → tid ≠ k).
      { intros Hin%passed_tasks_keys ->. done. }
      destruct (is_pass v) eqn:Ev; destruct (is_pass v') eqn:Ev';
        rewrite ?elem_of_cons; destruct (decide (tid = k)); intuition congruence.
    + apply String.eqb_neq in E. cbn [passed_tasks].
      destruct (is_pass v') eqn:Ev'; rewrite ?elem_of_cons, (IH Hnd);
        destruct (decide (tid = k)); intuition congruence.
Qed.

(** X9. What the next export selects after an annotation: the
    annotated task is selected exactly when its new mark is "pass", so
    marking it "fail" or clearing the mark takes it out; the selection
    of every other task is what it was. *)
Theorem annotate_then_select (annotations_file : option (dict annotation))
    (data : annotate_request) (tid : string) :
  NoDup (keys (load_annotations annotations_file)) →
  tid ∈ passed_tasks (load_annotations (api_annotate annotations_file data))
  ↔ (tid = ar_task_id data ∧ ar_mark data = Some "pass")
    ∨ (tid ≠ ar_task_id data
       ∧ tid ∈ passed_tasks (load_annotations annotations_file)).
Proof.
  intros Hnd. unfold api_annotate.
  cbn [load_annotations default from_option id] in *.
  rewrite passed_tasks_dict_set by done.
  by rewrite is_pass_spec.
Qed.

End annotations.

Lemma annotate_last_wins_witness :
  api_annotate (api_annotate (Some two_verdicts) pass_request) unclear_request
  = api_annotate (Some two_verdicts) unclear_request.
Proof. apply annotate_last_wins. reflexivity. Defined.

Lemma annotate_keeps_order_witness :
  keys (load_annotations (api_annotate (Some two_verdicts) fail_request))
  = ["1"; "2"].
Proof.
  refine (eq_trans
    (proj1 (annotate_keeps_order (Some two_verdicts) fail_request) _) eq_refl).
  apply list_elem_of_here.
Defined.

Lemma annotate_then_select_witness :
  ("1" ∉ passed_tasks
           (load_annotations (api_annotate (Some two_verdicts) fail_request)))
  ∧ ("2" ∈ passed_tasks
             (load_annotations (api_annotate (Some two_verdicts) pass_request))).
Proof.
  assert (Hnd : NoDup (keys (load_annotations (Some two_verdicts)))).
  { apply NoDup_cons. split.
    - intros H%list_elem_of_singleton. discriminate H.
    - apply NoDup_singleton. }
  split.
  - intros H. apply (annotate_then_select (Some two_verdicts) fail_request "1" Hnd) in H.
    destruct H as [[_ H]|[H _]]; [discriminate H | by apply H].
  - apply (annotate_then_select (Some two_verdicts) pass_request "2" Hnd).
    left. split; reflexivity.
Defined.

(** ** Export assembler: further properties *)

Section export_more.

Lemma omap_length_full {A B} (f : A → option B) (l : list A) :
  length (omap f l) = length l ↔ ∀ x, x ∈ l → is_Some (f x).
Proof.
  induction l as [|a l IH]; cbn [omap list_omap length].
  - split; [|done]. by intros _ x ?%elem_of_nil.
  - destruct (f a) as [b|] eqn:E; cbn [length].
    + split.
      * intros [= Hlen] x [->|Hx]%elem_of_cons; [by rewrite E | by apply IH].
      * intros Hall. f_equal. apply IH. intros x Hx. apply Hall. by right.
    + split.
      * intros Hlen. pose proof (omap_length_le f l). lia.
      * intros Hall. destruct (Hall a) as [b Hb]; [by left | congruence].
Qed.

Lemma omap_tag_sublist {A B} (f : A → option B) (l : list A) :
  (omap (fun a => (fun r => (a, r)) <$> f a) l).*1 `sublist_of` l.
Proof.
  induction l as [|a l IH]; cbn [omap list_omap]; [done|].
  destruct (f a); cbn [fmap option_fmap option_map list_fmap fst].
  - by apply sublist_skip.
  - by apply sublist_cons.
Qed.

Lemma elem_of_concat {A} (x : A) (ls : list (list A)) :
  x ∈ concat ls ↔ ∃ l, x ∈ l ∧ l ∈ ls.
Proof.
  induction ls as [|l ls IH]; cbn [concat].
  - split; [by intros ?%elem_of_nil | by intros (? & _ & ?%elem_of_nil)].
  - rewrite elem_of_app, IH. split.
    + intros [Hx | (l' & Hx & Hl')]; [exists l | exists l'];
        (split; [done|]); [by left | by right].
    + intros (l' & Hx & [->|Hl']%elem_of_cons); [by left | right; eauto].
Qed.

Lemma passed_tasks_sublist (d : dict annotation) : passed_tasks d `sublist_of` keys d.
Proof.
  unfold keys. induction d as [|[k a] d IH]; cbn [passed_tasks fmap list_fmap fst];
    [done|].
  destruct (is_pass a); [by apply sublist_skip | by apply sublist_cons].
Qed.

Context (cv2 : frame_source) (DATA_DIR : gmap string task_dir).
Context (tasks : gmap string task_info).
Context (annotations_file : option (dict annotation)).
Context (coord_file : option (gmap string adjustment)).

Local Abbreviation annotations := (load_annotations annotations_file).
Local Abbreviation run_export_task :=
  (export_task cv2 DATA_DIR tasks annotations (load_coord_adjustments coord_file)).
Context (OUTPUT_DIR : gmap string output_file).

Local Abbreviation result :=
  (api_export cv2 DATA_DIR tasks annotations_file coord_file OUTPUT_DIR).

(** A task gets through the loop exactly when its directory, its
    complete event log and a video are there. *)
Lemma export_task_is_Some (tid : string) :
  is_Some (run_export_task tid)
  ↔ ∃ d, DATA_DIR !! tid = Some d ∧ is_Some (td_complete d)
         ∧ is_Some (find_video (td_mp4 d)).
Proof.
  unfold export_task, load_task_data.
  destruct (DATA_DIR !! tid) as [d|]; cbn [mbind option_bind].
  - destruct (find_video (td_mp4 d)) as [f|] eqn:Ev;
      destruct (td_complete d) as [evs|] eqn:Ec; cbn [mbind option_bind].
    + split; [|by eauto]. intros _. exists d. rewrite Ev. eauto.
    + split; [by intros [? [=]]|]. intros (d' & [= <-] & [? Hc] & _). congruence.
    + split; [by intros [? [=]]|]. intros (d' & [= <-] & _ & [? Hv]). congruence.
    + split; [by intros [? [=]]|]. intros (d' & [= <-] & [? Hc] & _). congruence.
  - split; [by intros [? [=]]|]. by intros (d' & [=] & _).
Qed.

(** X10. The count of the response equals the number of records in
    [all_tasks.json] (and of per-task files) exactly when no selected
    task is skipped, that is when every task marked "pass" has its
    directory, its complete event log and a video. *)
Theorem export_count_exact :
  er_count result = length (er_all_data result)
  ↔ ∀ tid, tid ∈ passed_tasks annotations →
      ∃ d, DATA_DIR !! tid = Some d ∧ is_Some (td_complete d)
           ∧ is_Some (find_video (td_mp4 d)).
Proof.
  cbn [api_export er_count er_all_data]. rewrite length_fmap. unfold export_loop.
  split.
  - intros Hlen tid Hin. apply export_task_is_Some.
    symmetry in Hlen. rewrite omap_length_full in Hlen.
    destruct (Hlen tid Hin) as [[t r] Hr].
    destruct (run_export_task tid); [eauto | done].
  - intros Hall. symmetry. apply omap_length_full. intros tid Hin.
    apply Hall, export_task_is_Some in Hin as [r ->]. eauto.
Qed.

(** X11. The records are written in the iteration order of the
    annotation store: the tasks exported form a subsequence of the
    store's task ids, the per-task files are theirs in that order, and
    [all_tasks.json] has one record for each. *)
Theorem export_follows_store_order :
  ∃ ids : list string,
    ids `sublist_of` keys annotations
    ∧ (er_task_files result).*1 = task_file <$> ids
    ∧ cd_task_id <$> er_all_data result = export_task_id <$> ids
    ∧ er_all_data result = (er_task_files result).*2.
Proof.
  exists ((export_loop cv2 DATA_DIR tasks annotations
             (load_coord_adjustments coord_file) (passed_tasks annotations)).*1).
  split.
  - etransitivity; [apply omap_tag_sublist | apply passed_tasks_sublist].
  - cbn [api_export er_task_files er_all_data].
    set (exported := export_loop _ _ _ _ _ _).
    assert (Hid : ∀ tid r, (tid, r) ∈ exported →
              cd_task_id (fst r) = export_task_id tid).
    { intros tid [d files] Hin. apply elem_of_export_loop in Hin as [_ Hrun].
      unfold export_task in Hrun.
      destruct (load_task_data cv2 DATA_DIR tid); cbn [mbind option_bind] in Hrun; [|done].
      destruct (DATA_DIR !! tid ≫= λ d0, find_video (td_mp4 d0));
        cbn [mbind option_bind] in Hrun; [|done].
      by injection Hrun as <- _. }
    clearbody exported. rewrite <- !list_fmap_compose.
    repeat split.
    + apply list_fmap_ext. by intros i [tid [d files]] _.
    + induction exported as [|[tid [d files]] rest IH]; [done|].
      cbn [fmap list_fmap compose]. f_equal.
      * apply (Hid tid (d, files)). by left.
      * apply IH. intros t r Hin. apply Hid. by right.
    + apply list_fmap_ext. by intros i [tid [d files]] _.
Qed.

(** X12. The trajectory of an exported task has one entry for every
    step, in order, carrying the step's index and justification and the
    screenshot reference [task_<id>/step_<i>.png]; a step without
    adjustment keeps its synthesized code.  The screenshots written are
    among those the trajectory refers to, and when the decoder returns
    no frame none is written while the trajectory stays complete. *)
Theorem export_trajectory_complete (tid : string) d files :
  run_export_task tid = Some (d, files) →
  ∃ data,
    load_task_data cv2 DATA_DIR tid = Some data
    ∧ length (cd_traj d) = length (steps data)
    ∧ (∀ i st, steps data !! i = Some st →
         ∃ e, cd_traj d !! i = Some e
           ∧ te_index e = i
           ∧ te_screenshot e
             = "task_" +:+ tid +:+ "/step_" +:+ format_int (Z.of_nat i) +:+ ".png"
           ∧ te_justification e = justification st
           ∧ (load_coord_adjustments coord_file !! adj_key tid (Z.of_nat i) = None →
              te_code e = code st))
    ∧ (∀ f, f ∈ files → ∃ e, e ∈ cd_traj d ∧ te_screenshot e = f)
    ∧ ((∀ video n, cap_read cv2 video n = false) → files = []).
Proof.
  unfold export_task. intros Hrun.
  destruct (load_task_data cv2 DATA_DIR tid) as [data|] eqn:Hload;
    cbn [mbind option_bind] in Hrun; [|done].
  destruct (DATA_DIR !! tid ≫= λ d0, find_video (td_mp4 d0)) as [f|];
    cbn [mbind option_bind] in Hrun; [|done].
  injection Hrun as <- <-. exists data. split; [done|].
  cbn [cd_traj]. set (turn := export_step _ _ _ _ _ _).
  split; [by rewrite !length_fmap|]. split; [|split].
  - intros i st Hi. rewrite !list_lookup_fmap, Hi.
    cbn [fmap option_fmap option_map]. eexists. split; [reflexivity|].
    pose proof (load_task_data_index cv2 DATA_DIR tid data i st Hload Hi) as Hidx.
    unfold turn, export_step. cbn [fst te_index te_screenshot te_justification te_code].
    rewrite Hidx. repeat split; try done.
    intros Hnone. by rewrite Hnone.
  - intros file Hin. apply elem_of_concat in Hin as (l & Hfile & Hl).
    apply list_elem_of_fmap in Hl as ([e written] & -> & Hturn).
    apply list_elem_of_fmap in Hturn as (st & Hst & Hin).
    exists e. split.
    + apply list_elem_of_fmap. exists (e, written). split; [done|].
      apply list_elem_of_fmap. by exists st.
    + unfold turn, export_step in Hst. injection Hst as -> ->.
      cbn [snd te_screenshot] in *.
      destruct (cap_read cv2 _ _); [|by apply elem_of_nil in Hfile].
      by apply list_elem_of_singleton in Hfile.
  - intros Hnone. induction (steps data) as [|st rest IH]; [done|].
    cbn [fmap list_fmap concat]. rewrite IH.
    unfold turn, export_step. cbn [snd]. by rewrite Hnone.
Qed.

(** X13. A task id that is the decimal form of a non-negative integer
    is exported as that integer; leading zeros are dropped on the way,
    so ids that differ only by them export as the same integer.  An id
    that is not all digits is exported as it is. *)
Theorem export_task_id_numeric (n : Z) :
  (0 <= n)%Z →
  export_task_id (format_int n) = inl n
  ∧ export_task_id ("0" +:+ format_int n) = inl n
  ∧ ∀ tid, isdigit tid = false → export_task_id tid = inr tid.
Proof.
  intros Hn. destruct (format_int_digits n Hn) as (Hne & Hall & Hint).
  unfold export_task_id. repeat split.
  - unfold isdigit. destruct (format_int n); [done|]. by rewrite Hall, Hint.
  - assert (H1 : isdigit ("0" +:+ format_int n) = all_digits (format_int n))
      by reflexivity.
    assert (H2 : int_of_digits ("0" +:+ format_int n) = int_of_digits (format_int n))
      by reflexivity.
    by rewrite H1, H2, Hall, Hint.
  - by intros tid ->.
Qed.

End export_more.

Lemma export_trajectory_complete_witness :
  ∃ d files,
    export_task short_video one_task ∅ [("7", pass_annotation)] ∅ "7" = Some (d, files)
    ∧ length (cd_traj d) = 1
    ∧ files = ["task_7/step_0.png"].
Proof.
  eexists _, _. split; [reflexivity|].
  destruct (export_trajectory_complete short_video one_task ∅
              (Some [("7", pass_annotation)]) None "7" _ _ eq_refl)
    as (data & Hload & Hlen & _).
  split; [|reflexivity].
  injection Hload as <-. exact Hlen.
Defined.

Lemma export_task_id_numeric_witness :
  export_task_id "7" = inl 7%Z ∧ export_task_id "07" = inl 7%Z.
Proof.
  destruct (export_task_id_numeric 7 ltac:(discriminate)) as (H1 & H2 & _).
  split; [exact H1 | exact H2].
Defined.

(** ** Frame serving *)

Section frames.

Lemma clamp_frame_spec (frame_num total_frames : Z) :
  (0 <= clamp_frame frame_num total_frames)%Z
  ∧ ((1 <= total_frames)%Z → (clamp_frame frame_num total_frames < total_frames)%Z)
  ∧ ((0 <= frame_num < total_frames)%Z → clamp_frame frame_num total_frames = frame_num)
  ∧ ((total_frames <= frame_num)%Z → (1 <= total_frames)%Z →
     clamp_frame frame_num total_frames = (total_frames - 1)%Z)
  ∧ ((frame_num < 0)%Z → clamp_frame frame_num total_frames = 0%Z).
Proof. unfold clamp_frame. lia. Qed.

(** X14. [serve_frame] answers 404 exactly when the task has no usable
    video (no directory, or no [.mp4] outside [video_clips]).  A frame
    it serves has a number that is not negative and, for a video with
    at least one frame, below the frame count, and is one the decoder
    returned; a time past the end serves the last frame. *)
Theorem serve_frame_in_range (cv2 : frame_source)
    (DATA_DIR : gmap string task_dir) (tid : string) (video_time : Q) :
  let video := DATA_DIR !! tid ≫= (fun d => find_video (td_mp4 d)) in
  (serve_frame cv2 DATA_DIR tid video_time = Error 404 "Video not found"
   ↔ video = None)
  ∧ (∀ n, serve_frame cv2 DATA_DIR tid video_time = Ok n →
       ∃ f, video = Some f
         ∧ (0 <= n)%Z
         ∧ ((1 <= cap_frame_count cv2 (path_str f))%Z →
            (n < cap_frame_count cv2 (path_str f))%Z)
         ∧ cap_read cv2 (path_str f) n = true
         ∧ ((cap_frame_count cv2 (path_str f)
             <= py_int (video_time * fps_or_30 (cap_fps cv2 (path_str f))))%Z →
            (1 <= cap_frame_count cv2 (path_str f))%Z →
            n = (cap_frame_count cv2 (path_str f) - 1)%Z)).
Proof.
  intros video. unfold serve_frame.
  assert (Hv : match DATA_DIR !! tid with
               | Some task_dir => find_video (td_mp4 task_dir)
               | None => None
               end = video).
  { unfold video. by destruct (DATA_DIR !! tid). }
  rewrite Hv. destruct video as [f|].
  - set (k := py_int _). set (total := cap_frame_count _ _).
    destruct (clamp_frame_spec k total) as (H0 & Hlt & _ & Hend & _).
    destruct (cap_read cv2 (path_str f) (clamp_frame k total)) eqn:Hread.
    + split; [done|]. intros n [= <-]. exists f. done.
    + split; [done|]. intros n [=].
  - split; [done|]. intros n [=].
Qed.

End frames.

Lemma serve_frame_in_range_witness :
  serve_frame short_video one_task "7" 1000 = Ok 899%Z
  ∧ serve_frame short_video one_task "8" 0 = Error 404 "Video not found".
Proof.
  destruct (serve_frame_in_range short_video one_task "7" 1000) as [_ Hok].
  destruct (Hok _ eq_refl) as (f & Hf & _ & _ & _ & Hlast).
  injection Hf as <-.
  split; [|exact (proj2 (proj1 (serve_frame_in_range short_video one_task "8" 0)) eq_refl)].
  exact (f_equal Ok (eq_sym (eq_trans (eq_sym (Hlast ltac:(discriminate) ltac:(discriminate))) eq_refl))).
Defined.

(** ** Task registry *)

Section registry.

Lemma lstrip_head s :
  lstrip s = "" ∨ ∃ c r, lstrip s = String c r ∧ is_space c = false.
Proof.
  unfold lstrip. induction s as [|c s IH]; cbn [span]; [by left|].
  destruct (is_space c) eqn:E.
  - by destruct (span is_space s).
  - right. by exists c, s.
Qed.

Lemma lstrip_fixed c r : is_space c = false → lstrip (String c r) = String c r.
Proof. intros E. unfold lstrip. cbn [span]. by rewrite E. Qed.

Lemma rstrip_head c r :
  is_space c = false → ∃ r', rstrip (String c r) = String c r'.
Proof.
  intros E. cbn [rstrip]. destruct (rstrip r); rewrite ?E; eauto.
Qed.

Lemma rstrip_idem s : rstrip (rstrip s) = rstrip s.
Proof.
  induction s as [|c s IH]; [done|]. cbn [rstrip].
  destruct (rstrip s) as [|c' r] eqn:E.
  - destruct (is_space c) eqn:Ec; [done|]. cbn [rstrip]. by rewrite Ec.
  - cbn [rstrip]. cbn [rstrip] in IH. by rewrite IH.
Qed.

Lemma strip_idem s : strip (strip s) = strip s.
Proof.
  unfold strip. destruct (lstrip_head s) as [->|(c & r & -> & Hc)]; [done|].
  destruct (rstrip_head c r Hc) as [r' Hr]. rewrite Hr.
  rewrite (lstrip_fixed c r' Hc), <- Hr. apply rstrip_idem.
Qed.

Lemma foldl_add_row_lookup rows : ∀ acc tid info,
  foldl add_row acc rows !! tid = Some info →
  acc !! tid = Some info
  ∨ ∃ row, row ∈ rows ∧ row_key row = tid ∧ tid ≠ "" ∧ info = row_info row.
Proof.
  induction rows as [|row rows IH]; intros acc tid info; cbn [foldl]; [by left|].
  intros [Hacc|(r & Hin & Hr)]%IH.
  - unfold add_row in Hacc. destruct (String.eqb (row_key row) "") eqn:E; [by left|].
    apply String.eqb_neq in E.
    destruct (decide (row_key row = tid)) as [<-|Hne].
    + rewrite lookup_insert_eq in Hacc. injection Hacc as <-.
      right. exists row. split; [by left | done].
    + rewrite lookup_insert_ne in Hacc by done. by left.
  - right. exists r. split; [by right | done].
Qed.

(** X15. Every key of the registry [load_tasks] builds is a task id
    with the surrounding white space removed and is not empty, and its
    entry comes from a row of the file with that id; a missing file
    gives the empty registry. *)
Theorem load_tasks_keys (csv_file : option (list csv_row)) (tid : string) info :
  load_tasks csv_file !! tid = Some info →
  tid ≠ "" ∧ strip tid = tid
  ∧ ∃ rows row, csv_file = Some rows ∧ row ∈ rows
      ∧ strip (default "" (row_task_id row)) = tid ∧ info = row_info row.
Proof.
  unfold load_tasks. destruct csv_file as [rows|]; [|by rewrite lookup_empty].
  intros [Hempty|(row & Hin & Hkey & Hne & ->)]%foldl_add_row_lookup;
    [by rewrite lookup_empty in Hempty|].
  split; [done|]. split; [|by exists rows, row].
  rewrite <- Hkey. apply strip_idem.
Qed.

(** X16. Rows are taken in order and a later row replaces an earlier
    one with the same stripped id; a row whose id is blank is
    ignored. *)
Theorem load_tasks_last_row (rows : list csv_row) (row : csv_row) :
  (row_key row ≠ "" →
   load_tasks (Some (rows ++ [row])%list) !! row_key row = Some (row_info row))
  ∧ (row_key row = "" → load_tasks (Some (rows ++ [row])%list) = load_tasks (Some rows))
  ∧ (∀ tid, tid ≠ row_key row →
       load_tasks (Some (rows ++ [row])%list) !! tid = load_tasks (Some rows) !! tid).
Proof.
  unfold load_tasks. rewrite foldl_app. cbn [foldl].
  set (before := foldl add_row ∅ rows). unfold add_row.
  destruct (String.eqb (row_key row) "") eqn:E.
  - apply String.eqb_eq in E. split; [by intros []|]. split; [done|].
    by intros tid Hne.
  - apply String.eqb_neq in E. split; [intros _; apply lookup_insert_eq|].
    split; [by intros ?|]. intros tid Hne. by apply lookup_insert_ne.
Qed.

End registry.

Lemma load_tasks_keys_witness :
  load_tasks (Some registry_rows) !! "7"
  = Some {| ti_instruction := "Close the file"; ti_worker_id := "w2";
            ti_worker_name := "Bob" |}
  ∧ strip "7" = "7".
Proof.
  split; [by vm_compute|].
  exact (proj1 (proj2 (load_tasks_keys (Some registry_rows) "7" _ eq_refl))).
Defined.

(** ** Action code synthesizer: further properties *)

Section synthesizer.


Lemma re_search_none {A} (p : ascii → bool) (m : string → option A) s :
  (∀ c s, p c = true → m (String c s) = None) → m "" = None →
  all_chars p s = true → re_search m s = None.
Proof.
  intros Hm Hnil. induction s as [|c s IH]; cbn [re_search all_chars].
  - by rewrite Hnil.
  - intros [Hc Hs]%andb_true_iff. rewrite (Hm c s Hc). by apply IH.
Qed.

Lemma lit_miss l x l' c s :
  l = String x l' → Ascii.eqb x c = false → lit l (String c s) = None.
Proof. intros -> E. cbn [lit]. by rewrite E. Qed.

Lemma ascii_not_marker c : is_ascii c = true → Ascii.eqb "226" c = false.
Proof.
  intros Hc. destruct (Ascii.eqb "226" c) eqn:E; [|done].
  apply Ascii.eqb_eq in E. by subst.
Qed.

Lemma count_pattern_miss marker l' c s :
  marker = String "226" l' → is_ascii c = true →
  count_pattern marker (String c s) = None.
Proof.
  intros Hm Hc. unfold count_pattern.
  by rewrite (lit_miss marker "226" l' c s Hm (ascii_not_marker c Hc)).
Qed.

Lemma entry_pattern_miss word c s :
  is_ascii c = true → entry_pattern word (String c s) = None.
Proof.
  intros Hc. unfold entry_pattern.
  by rewrite (lit_miss keyboard_marker "226" _ c s eq_refl (ascii_not_marker c Hc)).
Qed.




(** X17. A description of ASCII characters only carries none of the
    markers: its scroll step scrolls by 0, its type step writes the
    placeholder and its press step presses the placeholder. *)
Theorem plain_description_defaults (ev : event) (d : string) :
  ascii_only d = true →
  build_pyautogui_code "scroll" ev d = "pyautogui.scroll(0)"
  ∧ build_pyautogui_code "type" ev d = "pyautogui.write('...')"
  ∧ build_pyautogui_code "press" ev d = "pyautogui.press('...')".
Proof.
  intros Hd. unfold build_pyautogui_code.
  cbn [String.eqb Ascii.eqb Bool.eqb].
  rewrite (re_search_none is_ascii (count_pattern down_marker) d),
          (re_search_none is_ascii (count_pattern up_marker) d),
          !(re_search_none is_ascii (entry_pattern _) d);
    try done; try (intros c s Hc; by apply entry_pattern_miss);
    intros c s Hc; by eapply count_pattern_miss.
Qed.



Lemma len_app a b : len (a +:+ b) = len a + len b.
Proof.
  induction a as [|c a IH]; [done|]. rewrite string_app_cons. cbn [len].
  destruct (is_continuation c); rewrite IH; done.
Qed.

Lemma len_take_le n s : (len (take n s) <= n)%nat.
Proof.
  revert n. induction s as [|c s IH]; intros n; cbn [take len]; [lia|].
  destruct (is_continuation c) eqn:E.
  - cbn [len]. rewrite E. apply IH.
  - destruct n as [|n]; cbn [len]; [lia|]. rewrite E. specialize (IH n). lia.
Qed.

(** X19. The text a type step writes is bounded: whatever the
    description, the code is [pyautogui.write('<text>')] with a text of
    at most 33 characters (30 of the entry and the three dots). *)
Theorem type_text_bounded (ev : event) (d : string) :
  ∃ text, build_pyautogui_code "type" ev d = "pyautogui.write('" +:+ text +:+ "')"
          ∧ (len text <= 33)%nat.
Proof.
  unfold build_pyautogui_code. cbn [String.eqb Ascii.eqb Bool.eqb].
  destruct (re_search (entry_pattern " Type: ") d) as [g|].
  - destruct (30 <? len g)%nat eqn:E.
    + exists (take 30 g +:+ "..."). split; [done|].
      rewrite len_app. pose proof (len_take_le 30 g) as Hle.
      assert (Hdots : len "..." = 3) by reflexivity. rewrite Hdots.
      clear -Hle. lia.
    + exists g. split; [done|]. apply Nat.ltb_ge in E. clear -E. lia.
  - exists "...". split; [done|]. vm_compute. lia.
Qed.

End synthesizer.

Lemma plain_description_defaults_witness :
  build_pyautogui_code "scroll" empty_event "Scroll down a little"
  = "pyautogui.scroll(0)".
Proof.
  exact (proj1 (plain_description_defaults empty_event "Scroll down a little" eq_refl)).
Defined.


(** ** Repeated substitution *)

Section repeated_substitution.

Ltac lacking c :=
  match goal with
  | |- contains ?needle ?s = false =>
      apply (contains_lacking needle s c); [reflexivity|];
      rewrite ?has_char_app;
      rewrite ?format_int_lacks by reflexivity;
      simpl;
      rewrite ?(all_digits_lacks c) by (reflexivity || assumption);
      reflexivity
  end.

Lemma re_search_drag_to_lacking g r :
  has_char "d" g = false →
  re_search drag_to_pattern (g +:+ r) = re_search drag_to_pattern r.
Proof.
  induction g as [|c g IH]; [done|]. cbn [has_char].
  intros [Hc Hg]%orb_false_iff. rewrite string_app_cons.
  rewrite re_search_miss; [by apply IH|]. by apply drag_to_pattern_miss.
Qed.

Lemma drag_to_pattern_groups s g1 g2 :
  drag_to_pattern s = Some (g1, g2) →
  (g1 ≠ "" ∧ all_digits g1 = true) ∧ (g2 ≠ "" ∧ all_digits g2 = true).
Proof.
  unfold drag_to_pattern. intros H.
  destruct (lit "dragTo(" s) as [s1|]; cbn [mbind option_bind] in H; [|done].
  destruct (digits1 s1) as [[d1 s2]|] eqn:E1; cbn [mbind option_bind] in H; [|done].
  destruct (lit "," s2) as [s3|]; cbn [mbind option_bind] in H; [|done].
  destruct (digits1 (spaces s3)) as [[d2 s4]|] eqn:E2;
    cbn [mbind option_bind] in H; [|done].
  destruct (lit ")" s4) as [s5|]; cbn [mbind option_bind] in H; [|done].
  injection H as <- <-.
  apply digits1_some in E1, E2. done.
Qed.

Lemma adjust_move_drag_formatted a b g3 g4 x y :
  g3 ≠ "" → all_digits g3 = true → g4 ≠ "" → all_digits g4 = true →
  adjust_code (move_drag_code (format_int a) (format_int b) g3 g4) x y
  = move_drag_code (format_int x) (format_int y) g3 g4.
Proof.
  intros H3 D3 H4 D4.
  assert (Hre : re_search drag_to_pattern
                  (move_drag_code (format_int a) (format_int b) g3 g4)
                = Some (g3, g4)).
  { unfold move_drag_code. rewrite ?string_app_cons, ?string_app_nil_l.
    rewrite !re_search_miss by reflexivity.
    rewrite re_search_drag_to_lacking by by apply format_int_lacks.
    rewrite ?string_app_cons, ?string_app_nil_l.
    rewrite !re_search_miss by reflexivity.
    rewrite re_search_drag_to_lacking by by apply format_int_lacks.
    rewrite ?string_app_cons, ?string_app_nil_l.
    rewrite !re_search_miss by reflexivity.
    apply re_search_hit.
    rewrite <- (drag_to_pattern_hit g3 g4) by done. reflexivity. }
  unfold adjust_code. rewrite Hre.
  assert (contains "doubleClick" (move_drag_code (format_int a) (format_int b) g3 g4)
          = false) as -> by (unfold move_drag_code; lacking "b"%char).
  assert (contains "rightClick" (move_drag_code (format_int a) (format_int b) g3 g4)
          = false) as -> by (unfold move_drag_code; lacking "h"%char).
  assert (contains "clicks=3" (move_drag_code (format_int a) (format_int b) g3 g4)
          = false) as -> by (unfold move_drag_code; lacking "="%char).
  assert (contains "pyautogui.click" (move_drag_code (format_int a) (format_int b) g3 g4)
          = false) as -> by (unfold move_drag_code; lacking "c"%char).
  assert (contains "moveTo" (move_drag_code (format_int a) (format_int b) g3 g4) = true)
    as -> by by apply contains_app_l.
  assert (contains "dragTo" (move_drag_code (format_int a) (format_int b) g3 g4) = true)
    as ->.
  { unfold move_drag_code. do 4 apply contains_app_r. by apply contains_app_l. }
  by rewrite andb_false_r.
Qed.

Lemma adjust_code_unfold code x y :
  adjust_code code x y
  = if contains "doubleClick" code then double_click_code x y
    else if contains "rightClick" code then right_click_code x y
    else if contains "clicks=3" code then triple_click_code x y
    else if contains "click" (lower code) && contains "pyautogui.click" code
    then click_code x y
    else if contains "moveTo" code && contains "dragTo" code then
      match re_search drag_to_pattern code with
      | Some (g1, g2) => move_drag_code (format_int x) (format_int y) g1 g2
      | None => code
      end
    else code.
Proof. reflexivity. Qed.

(** X20. Substituting twice is substituting once with the last
    coordinate: for every code string, adjusting to [(x, y)] and then
    to [(x', y')] gives what adjusting to [(x', y')] gives.  In
    particular the substitution is idempotent, so a code that went
    through it can go through it again. *)
Theorem adjust_code_twice (code : string) (x y x' y' : Z) :
  adjust_code (adjust_code code x y) x' y' = adjust_code code x' y'.
Proof.
  rewrite (adjust_code_unfold code x y), (adjust_code_unfold code x' y').
  destruct (contains "doubleClick" code) eqn:E1; [apply adjust_double_click|].
  destruct (contains "rightClick" code) eqn:E2; [apply adjust_right_click|].
  destruct (contains "clicks=3" code) eqn:E3; [apply adjust_triple_click|].
  destruct (contains "click" (lower code) && contains "pyautogui.click" code) eqn:Eclick;
    [apply adjust_click|].
  destruct (contains "moveTo" code && contains "dragTo" code) eqn:Edrag.
  - destruct (re_search drag_to_pattern code) as [[g1 g2]|] eqn:Ere.
    + apply re_search_some in Ere as [s' Hs'].
      apply drag_to_pattern_groups in Hs' as [[H1 D1] [H2 D2]].
      by apply adjust_move_drag_formatted.
    + by rewrite adjust_code_unfold, E1, E2, E3, Eclick, Edrag, Ere.
  - by rewrite adjust_code_unfold, E1, E2, E3, Eclick, Edrag.
Qed.

End repeated_substitution.

(** ** Normalizer: further properties *)

Section normalizer_more.

(** X21. The capture time lies before the action.  With a full
    [pre_move] window whose end is not before its start it lies inside
    the window; with only the end it lies in [[0, pm_end]], 0.3 s
    before the end when that much room is there; in the fallback it lies
    in [[0, start_time]], 0.1 s before the start when that much room is
    there. *)
Theorem capture_time_before_action (ce : event) :
  let start_time := default 0%Q (ev_start_time ce) in
  let pm_start := pre_move_get pm_start_time (ev_pre_move ce) in
  let pm_end := pre_move_get pm_end_time (ev_pre_move ce) in
  (∀ s e, holds pm_start s → holds pm_end e → (s <= e)%Q →
          (s <= capture_time ce)%Q ∧ (capture_time ce <= e)%Q)
  ∧ (∀ e, absent_or_zero pm_start → holds pm_end e → (0 <= e)%Q →
          (0 <= capture_time ce)%Q ∧ (capture_time ce <= e)%Q
          ∧ ((3 # 10 <= e)%Q → (capture_time ce == e - (3 # 10))%Q))
  ∧ (absent_or_zero pm_end → (0 <= start_time)%Q →
     (0 <= capture_time ce)%Q ∧ (capture_time ce <= start_time)%Q
     ∧ ((1 # 10 <= start_time)%Q → (capture_time ce == start_time - (1 # 10))%Q)).
Proof.
  intros start_time pm_start pm_end.
  assert (Hmax : ∀ q d, (0 <= q)%Q → (0 < d)%Q →
            (0 <= max0 (q - d))%Q ∧ (max0 (q - d) <= q)%Q
            ∧ ((d <= q)%Q → (max0 (q - d) == q - d)%Q)).
  { intros q d Hq Hd. unfold max0. destruct (Qle_bool (q - d) 0) eqn:E.
    - apply Qle_bool_iff in E. repeat split; [lra | lra |]. intros H. lra.
    - assert (¬ (q - d <= 0)%Q) by (intros H; apply Qle_bool_iff in H; congruence).
      repeat split; try lra. }
  unfold capture_time. fold pm_start pm_end start_time. repeat split.
  - rewrite (truthy_holds _ _ H), (truthy_holds _ _ H0); simpl.
    unfold pre_move_item. fold pm_start pm_end.
    destruct H as [-> _], H0 as [-> _]; simpl. lra.
  - rewrite (truthy_holds _ _ H), (truthy_holds _ _ H0); simpl.
    unfold pre_move_item. fold pm_start pm_end.
    destruct H as [-> _], H0 as [-> _]; simpl. lra.
  - rewrite (truthy_absent _ H), (truthy_holds _ _ H0); simpl.
    unfold pre_move_item. fold pm_end. destruct H0 as [-> _]; simpl.
    by apply Hmax.
  - rewrite (truthy_absent _ H), (truthy_holds _ _ H0); simpl.
    unfold pre_move_item. fold pm_end. destruct H0 as [-> _]; simpl.
    by apply Hmax.
  - rewrite (truthy_absent _ H), (truthy_holds _ _ H0); simpl.
    unfold pre_move_item. fold pm_end. destruct H0 as [-> _]; simpl.
    by apply Hmax.
  - rewrite (truthy_absent _ H), andb_false_r. by apply Hmax.
  - rewrite (truthy_absent _ H), andb_false_r. by apply Hmax.
  - rewrite (truthy_absent _ H), andb_false_r. by apply Hmax.
Qed.

Lemma find_video_spec (mp4 : list path) f :
  find_video mp4 = Some f →
  f ∈ mp4 ∧ contains "video_clips" (path_str f) = false.
Proof.
  unfold find_video. intros [l Hl]%head_Some.
  assert (f ∈ filter (λ f0, negb (contains "video_clips" (path_str f0))) mp4) as H
    by (rewrite Hl; left).
  apply list_elem_of_filter in H as [Hf Hin]. split; [done|].
  by destruct (contains "video_clips" (path_str f)).
Qed.

Lemma find_video_none (mp4 : list path) :
  find_video mp4 = None
  ↔ ∀ f, f ∈ mp4 → contains "video_clips" (path_str f) = true.
Proof.
  unfold find_video. rewrite head_None. split.
  - intros Hnil f Hin. destruct (contains "video_clips" (path_str f)) eqn:E; [done|].
    assert (f ∈ filter (λ f0, negb (contains "video_clips" (path_str f0))) mp4) as Hf.
    { apply list_elem_of_filter. split; [|done]. by rewrite E. }
    rewrite Hnil in Hf. by apply elem_of_nil in Hf.
  - intros Hall.
    destruct (filter (λ f0, negb (contains "video_clips" (path_str f0))) mp4)
      as [|f l] eqn:E; [done|].
    assert (f ∈ filter (λ f0, negb (contains "video_clips" (path_str f0))) mp4) as Hf
      by (rewrite E; left).
    apply list_elem_of_filter in Hf as [Hf Hin]. by rewrite (Hall f Hin) in Hf.
Qed.

(** X22. The data [load_task_data] returns never has a zero width or
    height: without a usable video, or when the decoder reports 0, the
    resolution is 1920 x 1080.  The video file named is the first
    [.mp4] of the directory whose path does not mention [video_clips],
    and none is named exactly when every [.mp4] mentions it. *)
Theorem video_and_resolution (cv2 : frame_source)
    (DATA_DIR : gmap string task_dir) (tid : string) data :
  load_task_data cv2 DATA_DIR tid = Some data →
  ∃ d, DATA_DIR !! tid = Some d
    ∧ video_width data ≠ 0%Z ∧ video_height data ≠ 0%Z
    ∧ (video_file data = None
       ↔ ∀ f, f ∈ td_mp4 d → contains "video_clips" (path_str f) = true)
    ∧ (video_file data = None →
       video_width data = 1920%Z ∧ video_height data = 1080%Z)
    ∧ (∀ name, video_file data = Some name →
         ∃ f, f ∈ td_mp4 d ∧ path_name f = name
           ∧ contains "video_clips" (path_str f) = false
           ∧ (cap_frame_width cv2 (path_str f) = 0%Z → video_width data = 1920%Z)
           ∧ (cap_frame_width cv2 (path_str f) ≠ 0%Z →
              video_width data = cap_frame_width cv2 (path_str f))
           ∧ (cap_frame_height cv2 (path_str f) = 0%Z → video_height data = 1080%Z)
           ∧ (cap_frame_height cv2 (path_str f) ≠ 0%Z →
              video_height data = cap_frame_height cv2 (path_str f))).
Proof.
  unfold load_task_data. destruct (DATA_DIR !! tid) as [d|]; [|done].
  destruct (find_video (td_mp4 d)) as [f|] eqn:Ev;
    destruct (td_complete d) as [evs|]; try done;
    intros [= <-]; exists d; (split; [done|]);
    cbn [video_width video_height video_file fmap option_fmap option_map].
  - destruct (find_video_spec _ _ Ev) as [Hin Hclip].
    unfold or_default.
    destruct (Z.eqb_spec (cap_frame_width cv2 (path_str f)) 0) as [Hw|Hw];
    destruct (Z.eqb_spec (cap_frame_height cv2 (path_str f)) 0) as [Hh|Hh];
      (split; [done|]); (split; [done|]); (split; [|split; [done|]]);
      try (split; [done|]; intros Hall; specialize (Hall f Hin); congruence);
      intros name [= <-]; exists f; repeat split; done.
  - split; [done|]. split; [done|]. split; [|split; [done|done]].
    split; [intros _; by apply find_video_none | done].
Qed.

End normalizer_more.

Lemma capture_time_before_action_witness :
  (10 <= capture_time full_window_event)%Q
  ∧ (capture_time full_window_event <= 12)%Q.
Proof.
  refine (proj1 (capture_time_before_action full_window_event) 10%Q 12%Q _ _ _);
    [split; [reflexivity | discriminate] .. | discriminate].
Defined.

Lemma video_and_resolution_witness :
  ∃ d, one_task !! "7" = Some d
    ∧ video_file (default (Build_task_data "" None 0 0 0 [])
                    (load_task_data no_video one_task "7")) = Some "rec.mp4"
    ∧ video_width (default (Build_task_data "" None 0 0 0 [])
                     (load_task_data no_video one_task "7")) ≠ 0%Z.
Proof.
  destruct (video_and_resolution no_video one_task "7"
              (default (Build_task_data "" None 0 0 0 [])
                 (load_task_data no_video one_task "7")) eq_refl)
    as (d & Hd & Hw & _).
  exists d. split; [exact Hd|]. split; [reflexivity | exact Hw].
Defined.

(** * Coordinate substitution as served and as exported *)

Section variant_preserved.

Context (cv2 : frame_source) (DATA_DIR : gmap string task_dir).
Context (tasks : gmap string task_info).
Context (annotations_file : option (dict annotation)).
Context (coord_file : option (gmap string adjustment)).
Context (OUTPUT_DIR : gmap string output_file).
Context (tid : string).






End variant_preserved.


